(** * sic2lp: SafeInCloud cards to LastPass sites and secure notes

    A shallow embedding of [main.go]: the card classifier [parse], the two
    record builders [importSite] and [importSecureNote], folder resolution
    [primaryCardLabel], the label resolver [cardLabels] and the attachment
    dumper ([extractAttachments], [dumpfile]), followed by the properties of
    the specification that were checked against them.

    Go strings are byte sequences: they are modelled as [string] (a list of
    8-bit [ascii]).  The two process-wide accumulators [importedSites] and
    [importedNotes] and the files written below [attachments] are threaded
    as an explicit [World]; a function that returns a Go [error] returns the
    new world and an [option error] ([None] for [nil]). *)

From Stdlib Require Import String Ascii List Bool Arith NArith ZArith Lia.
From Stdlib Require Import DecimalString Sorted.
Import ListNotations.

Local Open Scope list_scope.
Local Open Scope string_scope.

(** ** The Go standard library, as far as the program calls it *)

Module Go.

(** A newline, as it stands inside the program's raw string literals. *)
Definition LF : string := String (ascii_of_nat 10) "".

(** [strconv.Itoa] on a slice index (never negative). *)
Definition Itoa (i : nat) : string := NilZero.string_of_uint (Nat.to_uint i).

(** [strings.Join]. *)
Definition Join (elems : list string) (sep : string) : string :=
  String.concat sep elems.

(** [strings.HasPrefix s prefix]. *)
Definition HasPrefix (s pre : string) : bool := String.prefix pre s.

(** [strings.Replace s old new n], for a non-empty [old]: the leftmost
    non-overlapping occurrences of [old] are replaced in one pass from
    left to right, at most [n] of them, all of them when [n < 0].
    [limit] is the remaining count ([None]: no limit) and [skip] the
    number of bytes of a matched [old] still to be dropped. *)
Fixpoint replaceFrom (old new : string) (limit : option nat) (skip : nat)
         (s : string) : string :=
  match s with
  | EmptyString => EmptyString
  | String c s' =>
      match skip with
      | S k => replaceFrom old new limit k s'
      | O =>
          match limit with
          | Some O => s
          | _ =>
              if HasPrefix s old
              then new ++ replaceFrom old new (option_map pred limit)
                                      (pred (String.length old)) s'
              else String c (replaceFrom old new limit 0 s')
          end
      end
  end.

(** The program only ever passes the non-empty literals ["http://"],
    ["https://"] and ["%20"] as [old]; Go's branch for an empty [old]
    (insertion at every UTF-8 rune boundary) is never taken and is left
    as the identity here. *)
Definition Replace (s old new : string) (n : Z) : string :=
  if String.eqb old new then s
  else if Z.eqb n 0 then s
  else match old with
       | EmptyString => s
       | _ => replaceFrom old new
                (if Z.ltb n 0 then None else Some (Z.to_nat n)) 0 s
       end.

(** [url.QueryEscape]: [shouldEscape] in mode [encodeQueryComponent]. *)
Definition isAlnum (c : ascii) : bool :=
  let n := nat_of_ascii c in
  (((97 <=? n) && (n <=? 122)) || ((65 <=? n) && (n <=? 90))
   || ((48 <=? n) && (n <=? 57)))%nat.

Definition shouldEscape (c : ascii) : bool :=
  if isAlnum c then false
  else if (Ascii.eqb c "-" || Ascii.eqb c "_" || Ascii.eqb c "."
           || Ascii.eqb c "~")%char
       then false
       else true.

Definition upperhex : string := "0123456789ABCDEF".

Definition hexDigit (n : nat) : ascii :=
  match String.get n upperhex with
  | Some d => d
  | None => "0"%char
  end.

Fixpoint QueryEscape (s : string) : string :=
  match s with
  | EmptyString => EmptyString
  | String c s' =>
      if Ascii.eqb c " " then String "+" (QueryEscape s')
      else if shouldEscape c
           then String "%"
                 (String (hexDigit (nat_of_ascii c / 16))
                    (String (hexDigit (nat_of_ascii c mod 16))
                       (QueryEscape s')))
           else String c (QueryEscape s')
  end.

(** [strings.EqualFold].  The byte loop over the common ASCII prefix is
    the library's; once either string shows a byte of a multi-byte rune
    ([>= utf8.RuneSelf]) the library compares the two remainders rune by
    rune with the Unicode case-folding tables, which is the parameter
    [foldUnicode]. *)
Definition RuneSelf : N := 128.

Section EqualFold.
Variable foldUnicode : string -> string -> bool.

Definition asciiFold (sr tr : N) : bool :=
  if N.eqb tr sr then true
  else
    let lo := N.min sr tr in
    let hi := N.max sr tr in
    (65 <=? lo)%N && (lo <=? 90)%N && N.eqb hi (lo + 97 - 65).

Fixpoint EqualFold (s t : string) : bool :=
  match s, t with
  | String sr s', String tr t' =>
      if (RuneSelf <=? N.lor (N_of_ascii sr) (N_of_ascii tr))%N
      then foldUnicode s t
      else if asciiFold (N_of_ascii sr) (N_of_ascii tr)
           then EqualFold s' t'
           else false
  | EmptyString, EmptyString => true
  | _, _ => false
  end.
End EqualFold.

End Go.

(** ** The SafeInCloud database, as the program reads it

    The package [github.com/eduncan911/safeincloud] declares these types;
    [main.go] only imports it.  Each record keeps the members [main.go]
    reads, under the names it reads them by, with the types its uses
    force ([c.ID] is appended to a string, [file.Value] is a [[]byte]);
    identifiers of labels are taken to be strings like those of cards. *)

Module Field.
(** Modelled from the spec: [safeincloud.Field], a (name, type-tag, value)
    triplet inside a card. *)
Record t := mk { Name : string; FieldType : string; Value : string }.
End Field.

Module Label.
(** Modelled from the spec: [safeincloud.Label], a row of the database's
    label table: identifier and name. *)
Record t := mk { ID : string; Name : string }.
End Label.

Module File.
(** Modelled from the spec: a file attachment, its original file name and
    its bytes. *)
Record t := mk { Name : string; Value : list Byte.byte }.
End File.

Module Image.
(** Modelled from the spec: an image attachment, its bytes. *)
Record t := mk { Value : list Byte.byte }.
End Image.

Module Card.
(** Modelled from the spec: [safeincloud.Card], with its identifier,
    title, flags, ordered fields, notes, label references and
    attachments. *)
Record t := mk {
  ID : string;
  Title : string;
  Deleted : bool;
  Template : bool;
  Star : bool;
  Fields : list Field.t;
  Notes : string;
  LabelIDs : list string;
  Files : list File.t;
  Images : list Image.t }.
End Card.

Module Database.
(** Modelled from the spec: [safeincloud.Database], the cards and the
    label table. *)
Record t := mk { Cards : list Card.t; Labels : list Label.t }.
End Database.

(** ** Output records *)

Module Site.
(** [type site struct]: a LastPass site, fields in CSV column order
    ([Type_] is the field [Type]). *)
Record site := mk {
  URL : string;
  Type_ : string;
  Username : string;
  Password : string;
  Hostname : string;
  Extra : string;
  Name : string;
  Grouping : string;
  Fav : string }.
End Site.

Module Note.
(** [type note struct]: a LastPass secure note. *)
Record note := mk {
  URL : string;
  Username : string;
  Password : string;
  Extra : string;
  Name : string;
  Grouping : string;
  Fav : string }.
End Note.

(** ** Errors, the world and the platform *)

(** A Go [error]: one reported by the operating system, or one wrapped by
    [errors.Wrap cause msg]. *)
Inductive error : Type :=
| OSError (msg : string)
| Wrap (cause : error) (msg : string).

(** The files written so far, oldest first: full path and contents. *)
Definition Disk : Type := list (string * list Byte.byte).

Record World := mkWorld {
  importedSites : list Site.site;
  importedNotes : list Note.note;
  disk : Disk }.

(** What the program takes from its platform: the Unicode slow path of
    [strings.EqualFold], [os.PathSeparator], and the outcome of
    [os.MkdirAll] and [ioutil.WriteFile] (which may depend on what has been
    written before). *)
Class Env := mkEnv {
  foldUnicode : string -> string -> bool;
  PathSeparator : ascii;
  MkdirAll : Disk -> string -> option error;
  WriteFile : Disk -> string -> list Byte.byte -> option error }.

(** ** The program *)

Section Program.
Context {env : Env}.

(** [fmt.Sprintf(extraFormat, name, value)] with
    [extraFormat = "%s: %s\n\n"]. *)
Definition extraFormat (name value : string) : string :=
  name ++ ": " ++ value ++ Go.LF ++ Go.LF.

(** [cardLabels]: the names of the card's labels, in the order of
    [c.LabelIDs]. *)
Definition cardLabels (db : Database.t) (c : Card.t) : list string :=
  fold_left
    (fun labels id =>
       fold_left
         (fun labels label =>
            if String.eqb (Label.ID label) id
            then (labels ++ [Label.Name label])%list
            else labels)
         (Database.Labels db) labels)
    (Card.LabelIDs c) [].

(** The inner loop of [primaryCardLabel]: does [f] fold-equal a label? *)
Fixpoint matchesLabel (f : string) (labels : list string) : bool :=
  match labels with
  | [] => false
  | l :: labels' =>
      if Go.EqualFold foldUnicode f l then true
      else matchesLabel f labels'
  end.

(** The outer loop of [primaryCardLabel]: the first priority folder that
    matches, if the loop returns. *)
Fixpoint firstPriority (pf labels : list string) : option string :=
  match pf with
  | [] => None
  | f :: pf' =>
      if matchesLabel f labels then Some f else firstPriority pf' labels
  end.

Definition primaryCardLabel (db : Database.t) (c : Card.t)
           (pf : list string) (df : string) : string :=
  let labels := cardLabels db c in
  match labels with
  | [] => df
  | label0 :: _ =>
      match firstPriority pf labels with
      | Some f => f
      | None => df ++ " - " ++ label0
      end
  end.

(** [dumpfile]. *)
Definition dumpfile (filename : string) (data : list Byte.byte)
           (w : World) : World * option error :=
  let cfilename := Go.QueryEscape filename in
  let cfilename := Go.Replace cfilename "%20" " " (-1) in
  let dir := "attachments" in
  match MkdirAll (disk w) dir with
  | Some err => (w, Some (Wrap err "os.MkdirAll returned error"))
  | None =>
      let fullpath := dir ++ String PathSeparator "" ++ cfilename in
      match WriteFile (disk w) fullpath data with
      | Some err => (w, Some (Wrap err "ioutil.WriteFile returned error"))
      | None =>
          (mkWorld (importedSites w) (importedNotes w)
                   (disk w ++ [(fullpath, data)])%list, None)
      end
  end.

(** [extractAttachments], first loop: [for i, file := range c.Files]. *)
Fixpoint dumpFiles (title : string) (i : nat) (files : list File.t)
         (w : World) : World * option error :=
  match files with
  | [] => (w, None)
  | file :: files' =>
      let name := title ++ "_" ++ Go.Itoa i ++ "_" ++ File.Name file in
      match dumpfile name (File.Value file) w with
      | (w', Some err) =>
          (w', Some (Wrap err "dumpfile for files returned error"))
      | (w', None) => dumpFiles title (S i) files' w'
      end
  end.

(** [extractAttachments], second loop: [for i, image := range c.Images]. *)
Fixpoint dumpImages (title : string) (i : nat) (images : list Image.t)
         (w : World) : World * option error :=
  match images with
  | [] => (w, None)
  | image :: images' =>
      let name := title ++ "_" ++ Go.Itoa i ++ ".jpg" in
      match dumpfile name (Image.Value image) w with
      | (w', Some err) =>
          (w', Some (Wrap err "dumpfile for images returned error"))
      | (w', None) => dumpImages title (S i) images' w'
      end
  end.

Definition extractAttachments (c : Card.t) (title : string) (w : World)
  : World * option error :=
  match dumpFiles title 0 (Card.Files c) w with
  | (w', Some err) => (w', Some err)
  | (w', None) => dumpImages title 0 (Card.Images c) w'
  end.

(** The tail both builders share: the card's notes and its labels. *)
Definition withNotesAndLabels (db : Database.t) (c : Card.t)
           (extra : string) : string :=
  let extra := extra ++ Card.Notes c in
  let labels := Go.Join (cardLabels db c) ", " in
  if (0 <? String.length labels)%nat
  then extra ++ Go.LF ++ Go.LF ++ "Labels: " ++ labels
  else extra.

(** [importSite], the loop that builds [s.Extra]. *)
Fixpoint siteExtra (url login pass : string) (fields : list Field.t)
         (extra : string) : string :=
  match fields with
  | [] => extra
  | f :: fields' =>
      if String.eqb (Field.Value f) url
         || String.eqb (Field.Value f) login
         || String.eqb (Field.Value f) pass
      then siteExtra url login pass fields' extra
      else siteExtra url login pass fields'
             (extra ++ extraFormat (Field.Name f) (Field.Value f))
  end.

(** [importSite], the record [s] as it stands when it is appended. *)
Definition siteRecord (db : Database.t) (c : Card.t) (pf : list string)
           (df title login pass url : string) : Site.site :=
  let fav := if Card.Star c then "1" else "" in
  let grouping := primaryCardLabel db c pf df in
  let extra := siteExtra url login pass (Card.Fields c) "" in
  let extra := withNotesAndLabels db c extra in
  Site.mk url "" login pass "" extra title grouping fav.

Definition importSite (db : Database.t) (c : Card.t) (pf : list string)
           (df title login pass url : string) (w : World)
  : World * option error :=
  let s := siteRecord db c pf df title login pass url in
  match extractAttachments c title w with
  | (w', Some err) =>
      (w', Some (Wrap err "extractAttachments returned error"))
  | (w', None) =>
      (mkWorld (importedSites w' ++ [s])%list (importedNotes w') (disk w'),
       None)
  end.

(** [importSecureNote], the [switch n.Grouping]. *)
Definition noteTypePrefix (grouping : string) : string :=
  if String.eqb grouping "Credit Cards" then "NoteType:Credit Card"
  else if String.eqb grouping "Banking" then "NoteType:Bank Account"
  else if String.eqb grouping "Databases" then "NoteType:Database"
  else if String.eqb grouping "Licenses" then "NoteType:Driver's License"
  else if String.eqb grouping "Insurance" then "NoteType:Insurance"
  else if String.eqb grouping "Membership" then "NoteType:Membership"
  else if String.eqb grouping "Passport" then "NoteType:Passport"
  else if String.eqb grouping "Servers" then "NoteType:Server"
  else if String.eqb grouping "Software" then "NoteType:Software License"
  else "".

(** [importSecureNote], the loop that builds [n.Extra]. *)
Fixpoint noteExtra (fields : list Field.t) (extra : string) : string :=
  match fields with
  | [] => extra
  | f :: fields' =>
      noteExtra fields' (extra ++ extraFormat (Field.Name f) (Field.Value f))
  end.

(** [importSecureNote], the title of the note. *)
Definition noteTitle (c : Card.t) : string :=
  let title := Card.Title c in
  if String.eqb title "" then "SecureNote " ++ Card.ID c else title.

(** [importSecureNote], the record [n] as it stands when it is appended. *)
Definition noteRecord (db : Database.t) (c : Card.t) (pf : list string)
           (df : string) : Note.note :=
  let title := noteTitle c in
  let fav := if Card.Star c then "1" else "" in
  let grouping := primaryCardLabel db c pf df in
  let prefix := noteTypePrefix grouping in
  let extra :=
    if negb (String.eqb prefix "") then prefix ++ Go.LF ++ Go.LF else "" in
  let extra := noteExtra (Card.Fields c) extra in
  let extra := withNotesAndLabels db c extra in
  Note.mk "http://sn" "" "" extra title grouping fav.

Definition importSecureNote (db : Database.t) (c : Card.t)
           (pf : list string) (df : string) (w : World)
  : World * option error :=
  let title := noteTitle c in
  let n := noteRecord db c pf df in
  match extractAttachments c title w with
  | (w', Some err) =>
      (w', Some (Wrap err "extractAttachments returned error"))
  | (w', None) =>
      (mkWorld (importedSites w') (importedNotes w' ++ [n])%list (disk w'),
       None)
  end.

(** [parse], the two inner loops over [c.Fields[i:]]: the value of the
    first field of type [ty] whose value is not empty, and [""] (the
    variable's zero value) when the loop runs out. *)
Fixpoint scanFirst (ty : string) (fields : list Field.t) : string :=
  match fields with
  | [] => ""
  | fi :: fields' =>
      if String.eqb (Field.FieldType fi) ty
         && negb (String.eqb (Field.Value fi) "")
      then Field.Value fi
      else scanFirst ty fields'
  end.

(** The title a site gets: the card's, or the website without its
    scheme. *)
Definition siteTitle (c : Card.t) (url : string) : string :=
  let title := Card.Title c in
  if String.eqb title "" then
    let title := url in
    let title := Go.Replace title "http://" "" (-1) in
    let title := Go.Replace title "https://" "" (-1) in
    title
  else title.

(** [parse], the loop [for i, f := range c.Fields]: [rest] is what is
    left to visit, [i] the index of its head.  The result is the error
    returned from inside the loop, or the flag [importedSite]. *)
Fixpoint parseLoop (db : Database.t) (c : Card.t) (pf : list string)
         (df : string) (i : nat) (rest : list Field.t)
         (importedSite : bool) (w : World) : World * (error + bool) :=
  match rest with
  | [] => (w, inr importedSite)
  | f :: rest' =>
      if String.eqb (Field.FieldType f) "login"
         && negb (String.eqb (Field.Value f) "")
      then
        let login := Field.Value f in
        let pass := scanFirst "password" (skipn i (Card.Fields c)) in
        let url := scanFirst "website" (skipn i (Card.Fields c)) in
        if String.eqb pass "" || String.eqb url ""
        then parseLoop db c pf df (S i) rest' importedSite w
        else
          let title := siteTitle c url in
          if String.eqb title ""
          then parseLoop db c pf df (S i) rest' importedSite w
          else
            match importSite db c pf df title login pass url w with
            | (w', Some err) =>
                (w', inl (Wrap err "importSite returned error"))
            | (w', None) => parseLoop db c pf df (S i) rest' true w'
            end
      else parseLoop db c pf df (S i) rest' importedSite w
  end.

Definition parse (db : Database.t) (c : Card.t) (pf : list string)
           (df : string) (w : World) : World * option error :=
  match parseLoop db c pf df 0 (Card.Fields c) false w with
  | (w', inl err) => (w', Some err)
  | (w', inr true) => (w', None)
  | (w', inr false) =>
      match importSecureNote db c pf df w' with
      | (w'', Some err) =>
          (w'', Some (Wrap err "importSecureNote returned error"))
      | (w'', None) => (w'', None)
      end
  end.

(** [main], the body of [for _, c := range db.Cards]: deleted cards and
    templates are passed over, every other card is parsed. *)
Definition importCard (db : Database.t) (pf : list string) (df : string)
           (c : Card.t) (w : World) : World * option error :=
  if Card.Deleted c then (w, None)
  else if Card.Template c then (w, None)
  else parse db c pf df w.

(** [main], the loop itself; the run stops at the first error (exit
    code 11, before either CSV file is written).  The three counters of
    the loop only feed its last log line and are left out. *)
Fixpoint importCards (db : Database.t) (pf : list string) (df : string)
         (cards : list Card.t) (w : World) : World * option error :=
  match cards with
  | [] => (w, None)
  | c :: cards' =>
      match importCard db pf df c w with
      | (w', Some err) => (w', Some err)
      | (w', None) => importCards db pf df cards' w'
      end
  end.

End Program.

(** ** Vocabulary of the specification *)

Section Vocabulary.
Context {env : Env}.

(** A field dump: one ["<name>: <value>"] entry and a blank line per
    field, in the order of the list. *)
Fixpoint fieldDump (fields : list Field.t) : string :=
  match fields with
  | [] => ""
  | f :: fields' =>
      Field.Name f ++ ": " ++ Field.Value f ++ Go.LF ++ Go.LF
      ++ fieldDump fields'
  end.

(** What follows the card's notes in an extra block: nothing, or a blank
    line and the comma-separated labels. *)
Definition labelsTail (db : Database.t) (c : Card.t) : string :=
  let labels := Go.Join (cardLabels db c) ", " in
  if String.eqb labels "" then ""
  else Go.LF ++ Go.LF ++ "Labels: " ++ labels.

(** A field of type-tag [ty] with a non-empty value. *)
Definition typed (ty : string) (f : Field.t) : Prop :=
  Field.FieldType f = ty /\ Field.Value f <> "".

(** [j] is the first index [>= i] of a [ty]-typed field with a non-empty
    value, and [v] is that value. *)
Definition firstFrom (fields : list Field.t) (ty : string) (i j : nat)
           (v : string) : Prop :=
  i <= j
  /\ (exists fj, nth_error fields j = Some fj /\ typed ty fj
                 /\ Field.Value fj = v)
  /\ (forall k fk, i <= k < j -> nth_error fields k = Some fk ->
                   ~ typed ty fk).

(** An extra block that starts with the field dump of the whole card:
    no note-type prefix comes first. *)
Definition unprefixedExtra (db : Database.t) (c : Card.t) : string :=
  fieldDump (Card.Fields c) ++ Card.Notes c ++ labelsTail db c.

(** The forward scan succeeds for the login at index [i]: the field
    there is a login with the non-empty value [login], and [pass] and
    [url] are the first password and the first website from [i] on. *)
Definition scanned (c : Card.t) (i : nat) (login pass url : string)
  : Prop :=
  (exists f, nth_error (Card.Fields c) i = Some f /\ typed "login" f
             /\ Field.Value f = login)
  /\ (exists j, firstFrom (Card.Fields c) "password" i j pass)
  /\ (exists j, firstFrom (Card.Fields c) "website" i j url).

(** The login at index [i] qualifies: its scan succeeds and its title is
    not empty after the fallback. *)
Definition qualifies (c : Card.t) (i : nat) (login pass url : string)
  : Prop :=
  scanned c i login pass url /\ siteTitle c url <> "".

(** The triplet [parse] extracts at field [f] of index [i], with its
    title, if it extracts one: title, login, password, website. *)
Definition tripletAt (c : Card.t) (i : nat) (f : Field.t)
  : option (string * string * string * string) :=
  if String.eqb (Field.FieldType f) "login"
     && negb (String.eqb (Field.Value f) "")
  then
    let pass := scanFirst "password" (skipn i (Card.Fields c)) in
    let url := scanFirst "website" (skipn i (Card.Fields c)) in
    if String.eqb pass "" || String.eqb url "" then None
    else
      let title := siteTitle c url in
      if String.eqb title "" then None
      else Some (title, Field.Value f, pass, url)
  else None.

(** The triplets of the fields [rest], whose head has index [i]. *)
Fixpoint tripletsFrom (c : Card.t) (i : nat) (rest : list Field.t)
  : list (nat * (string * string * string * string)) :=
  match rest with
  | [] => []
  | f :: rest' =>
      match tripletAt c i f with
      | Some t => (i, t) :: tripletsFrom c (S i) rest'
      | None => tripletsFrom c (S i) rest'
      end
  end.

Definition triplets (c : Card.t)
  : list (nat * (string * string * string * string)) :=
  tripletsFrom c 0 (Card.Fields c).

(** The site [importSite] appends for a triplet. *)
Definition siteOf (db : Database.t) (c : Card.t) (pf : list string)
           (df : string) (t : nat * (string * string * string * string))
  : Site.site :=
  match t with
  | (_, (title, login, pass, url)) =>
      siteRecord db c pf df title login pass url
  end.

(** The four members a site needs are all non-empty. *)
Definition completeSite (s : Site.site) : Prop :=
  Site.URL s <> "" /\ Site.Username s <> "" /\ Site.Password s <> ""
  /\ Site.Name s <> "".

(** The fields a site's extra block keeps: those whose value is none of
    the site's url, username and password. *)
Definition keptBy (s : Site.site) (f : Field.t) : bool :=
  negb (String.eqb (Field.Value f) (Site.URL s)
        || String.eqb (Field.Value f) (Site.Username s)
        || String.eqb (Field.Value f) (Site.Password s)).

(** The title fallback as the specification words it: only the first
    occurrence of each scheme is replaced. *)
Definition stripFirstMatch (url : string) : string :=
  Go.Replace (Go.Replace url "http://" "" 1) "https://" "" 1.

(** What the code does instead: every occurrence is removed. *)
Definition stripAll (url : string) : string :=
  Go.Replace (Go.Replace url "http://" "" (-1)) "https://" "" (-1).

(** The folder names the note-type [switch] lists. *)
Definition noteTypeFolders : list string :=
  [ "Credit Cards"; "Banking"; "Databases"; "Licenses"; "Insurance";
    "Membership"; "Passport"; "Servers"; "Software" ].

(** No attachment of the card fails to be written, whatever is on the
    disk. *)
Definition reliable : Prop :=
  (forall d dir, MkdirAll d dir = None)
  /\ (forall d path data, WriteFile d path data = None).

(** Both accumulators are the same in the two worlds. *)
Definition sameRecords (w w' : World) : Prop :=
  importedSites w' = importedSites w /\ importedNotes w' = importedNotes w.

(** Does the string hold a space? *)
Fixpoint hasSpace (s : string) : bool :=
  match s with
  | EmptyString => false
  | String c s' => Ascii.eqb c " " || hasSpace s'
  end.

(** Does the string hold [" - "]? *)
Fixpoint hasDash (s : string) : bool :=
  match s with
  | EmptyString => false
  | String c s' => String.prefix " - " s || hasDash s'
  end.

End Vocabulary.

(** ** Concrete platforms and cards used in the examples *)

(** A platform on which every write succeeds and the path separator is
    the slash. *)
Definition unix : Env :=
  mkEnv (fun _ _ => false) "/"%char (fun _ _ => None) (fun _ _ _ => None).

Definition emptyWorld : World := mkWorld [] [] [].

Definition noLabels : Database.t := Database.mk [] [].

Definition bankLabels : Database.t :=
  Database.mk [] [Label.mk "7" "Credit Cards"; Label.mk "9" "Google"].

(** A card with one login block and no title. *)
Definition cardBob : Card.t :=
  Card.mk "42" "" false false false
    [ Field.mk "Login" "login" "bob";
      Field.mk "Password" "password" "pw1";
      Field.mk "Website" "website" "https://example.com" ]
    "" [] [] [].

(** A card with two login blocks, the second without a website. *)
Definition cardTwo : Card.t :=
  Card.mk "43" "Mail" false false true
    [ Field.mk "Login" "login" "ann";
      Field.mk "Password" "password" "pa";
      Field.mk "Website" "website" "https://mail.example";
      Field.mk "Login 2" "login" "ann2";
      Field.mk "Password 2" "password" "pa2";
      Field.mk "PIN" "pin" "pa" ]
    "shared mailbox" ["9"] [] [].

(** An untitled card whose website names a second address. *)
Definition cardRedirect : Card.t :=
  Card.mk "44" "" false false false
    [ Field.mk "Login" "login" "bob";
      Field.mk "Password" "password" "pw1";
      Field.mk "Website" "website" "http://a.example/?next=http://b.example" ]
    "" [] [] [].

(** A credit card: no login at all, one label. *)
Definition cardVisa : Card.t :=
  Card.mk "45" "" false false false
    [ Field.mk "Number" "number" "4111";
      Field.mk "Owner" "text" "Ann" ]
    "expires soon" ["7"] [] [].

(** A card with no field; and one with a file and an image attached. *)
Definition cardEmpty : Card.t :=
  Card.mk "46" "" false false false [] "" [] [] [].

Definition cardScan : Card.t :=
  Card.mk "47" "My Bank" false false false [] "" []
    [ File.mk "tax form.pdf" [Byte.x25; Byte.x50] ] [ Image.mk [Byte.xff] ].

(** ** The rest of the program: the card loop of [main] with its counters *)

(** The three counters of [main]. *)
Record Counters := mkCounters {
  imported : nat;
  deleted : nat;
  skipped : nat }.

Section MainLoop.
Context {env : Env}.

(** [main], the loop [for _, c := range db.Cards] with the counters it
    logs at the end; an error of [parse] ends the run ([os.Exit(11)]). *)
Fixpoint mainCards (db : Database.t) (pf : list string) (df : string)
         (cards : list Card.t) (n : Counters) (w : World)
  : World * (error + Counters) :=
  match cards with
  | [] => (w, inr n)
  | c :: cards' =>
      if Card.Deleted c
      then mainCards db pf df cards'
             (mkCounters (imported n) (S (deleted n)) (skipped n)) w
      else if Card.Template c
      then mainCards db pf df cards'
             (mkCounters (imported n) (deleted n) (S (skipped n))) w
      else
        match parse db c pf df w with
        | (w', Some err) => (w', inl err)
        | (w', None) =>
            mainCards db pf df cards'
              (mkCounters (S (imported n)) (deleted n) (skipped n)) w'
        end
  end.

End MainLoop.

(** ** Vocabulary for the rest of the program *)

Section MoreVocabulary.
Context {env : Env}.

(** The names of the table's labels that carry the identifier [id], in
    table order. *)
Definition labelNames (db : Database.t) (id : string) : list string :=
  map Label.Name
      (filter (fun label => String.eqb (Label.ID label) id)
              (Database.Labels db)).

(** The path an attachment of the given constructed name ends up at. *)
Definition attachmentPath (name : string) : string :=
  "attachments" ++ String PathSeparator "" ++ Go.QueryEscape name.

(** The files a dump of the file attachments writes, the first of them
    numbered [i]. *)
Fixpoint fileEntries (title : string) (i : nat) (files : list File.t)
  : Disk :=
  match files with
  | [] => []
  | file :: files' =>
      (attachmentPath (title ++ "_" ++ Go.Itoa i ++ "_" ++ File.Name file),
       File.Value file)
        :: fileEntries title (S i) files'
  end.

(** The files a dump of the image attachments writes. *)
Fixpoint imageEntries (title : string) (i : nat) (images : list Image.t)
  : Disk :=
  match images with
  | [] => []
  | image :: images' =>
      (attachmentPath (title ++ "_" ++ Go.Itoa i ++ ".jpg"),
       Image.Value image)
        :: imageEntries title (S i) images'
  end.

(** All the files one dump of the card's attachments writes. *)
Definition attachmentEntries (c : Card.t) (title : string) : Disk :=
  (fileEntries title 0 (Card.Files c)
   ++ imageEntries title 0 (Card.Images c))%list.

(** The title under which a triplet's site dumps the attachments. *)
Definition tripletTitle (t : nat * (string * string * string * string))
  : string :=
  match t with (_, (title, _, _, _)) => title end.

(** The bytes an escaped name is made of: letters, digits and
    [- _ . ~ % +]. *)
Definition safeChar (c : ascii) : bool :=
  Go.isAlnum c
  || Ascii.eqb c "-" || Ascii.eqb c "_" || Ascii.eqb c "." || Ascii.eqb c "~"
  || Ascii.eqb c "%" || Ascii.eqb c "+".

Fixpoint allChars (p : ascii -> bool) (s : string) : bool :=
  match s with
  | EmptyString => true
  | String c s' => p c && allChars p s'
  end.



(** A card that [main] hands to [parse]. *)
Definition live (c : Card.t) : bool :=
  negb (Card.Deleted c) && negb (Card.Template c).

(** The error came out of the platform: [os.MkdirAll] on the attachments
    directory or [ioutil.WriteFile] returned it. *)
Definition fromPlatform (oe : error) (msg : string) : Prop :=
  (msg = "os.MkdirAll returned error"
   /\ exists d, MkdirAll d "attachments" = Some oe)
  \/ (msg = "ioutil.WriteFile returned error"
      /\ exists d path data, WriteFile d path data = Some oe).

(** Does [old] occur in [s]? *)
Fixpoint occurs (old s : string) : bool :=
  match s with
  | EmptyString => String.prefix old ""
  | String _ s' => String.prefix old s || occurs old s'
  end.

End MoreVocabulary.

(** A platform on which no file can be written. *)
Definition readOnly : Env :=
  mkEnv (fun _ _ => false) "/"%char (fun _ _ => None)
        (fun _ _ _ => Some (OSError "read-only file system")).

(** A card with a title, two login blocks and one attached file. *)
Definition cardShared : Card.t :=
  Card.mk "48" "Router" false false true
    [ Field.mk "Admin" "login" "admin";
      Field.mk "Guest" "login" "guest";
      Field.mk "Password" "password" "s3cret";
      Field.mk "Address" "website" "http://192.168.0.1" ]
    "" ["9"; "1"] [ File.mk "cfg.bin" [Byte.x01] ] [].

(** A deleted card and a template. *)
Definition cardGone : Card.t :=
  Card.mk "49" "Old" true false false
    [ Field.mk "Login" "login" "x";
      Field.mk "Password" "password" "y";
      Field.mk "Website" "website" "z" ]
    "" [] [] [].

Definition cardTemplate : Card.t :=
  Card.mk "50" "Web account" false true false [] "" [] [] [].

(** ** The rest of the program: flags, CSV files and [main] *)

(** [strings.Split s sep] for a separator of one byte: the pieces of [s]
    between the occurrences of the separator, all of them, empty ones
    included. *)
Fixpoint SplitByte (sep : ascii) (s : string) : list string :=
  match s with
  | EmptyString => [""]
  | String c s' =>
      if Ascii.eqb c sep then "" :: SplitByte sep s'
      else match SplitByte sep s' with
           | piece :: pieces => String c piece :: pieces
           | [] => [String c ""]
           end
  end.

(** [main], the priority folders it derives from the flag [-p]. *)
Definition priorityFoldersOf (priorityFoldersRaw : string) : list string :=
  if negb (String.eqb priorityFoldersRaw "")
  then SplitByte "," priorityFoldersRaw
  else [].

(** What [reflect] shows of a struct all of whose fields are strings:
    the [csv] tag and the value of each field, in declaration order. *)
Class Reflect (A : Type) := mkReflect {
  structFields : list (string * (A -> string)) }.

(** [type site struct], as declared. *)
#[export] Instance reflectSite : Reflect Site.site := {|
  structFields :=
    [ ("url", Site.URL); ("type", Site.Type_); ("username", Site.Username);
      ("password", Site.Password); ("hostname", Site.Hostname);
      ("extra", Site.Extra); ("name", Site.Name);
      ("grouping", Site.Grouping); ("fav", Site.Fav) ] |}.

(** [type note struct], as declared. *)
#[export] Instance reflectNote : Reflect Note.note := {|
  structFields :=
    [ ("url", Note.URL); ("username", Note.Username);
      ("password", Note.Password); ("extra", Note.Extra);
      ("name", Note.Name); ("grouping", Note.Grouping);
      ("fav", Note.Fav) ] |}.

(** [csvHeaders]: the [csv] tags of the fields of [v]. *)
Definition csvHeaders {A : Type} {R : Reflect A} (v : A) : list string :=
  map fst structFields.

(** [csvSlice]: the values of the fields of [v]. *)
Definition csvSlice {A : Type} {R : Reflect A} (v : A) : list string :=
  map (fun field => snd field v) structFields.

(** The records handed to a [csv.Writer], oldest first. *)
Definition Table : Type := list (list string).

(** What [main] takes from its surroundings besides [Env]: the parser of
    package [safeincloud], [os.Create], and whether [csv.Writer.Write]
    accepts a record for a file given the records it has accepted. *)
Class Shell := mkShell {
  ParseFile : string -> Database.t + error;
  Create : string -> option error;
  WriterWrite : string -> Table -> list string -> option error }.

Section CsvOutput.
Context {env : Env} {shell : Shell}.

(** The loop [for _, s := range sites] of the two CSV writers: [written]
    is what the writer has accepted so far. *)
Fixpoint writeEntries {A : Type} {R : Reflect A} (file : string)
         (records : list A) (written : Table) : Table * option error :=
  match records with
  | [] => (written, None)
  | s :: records' =>
      let row := csvSlice s in
      match WriterWrite file written row with
      | Some err => (written, Some (Wrap err "writer.Write Entry error"))
      | None => writeEntries file records' (written ++ [row])%list
      end
  end.

(** The body the two CSV writers share.  The table is [None] when the
    file was not created, and otherwise the records the writer has
    accepted for it. *)
Definition writeCSV {A : Type} {R : Reflect A} (file : string)
           (records : list A) : option Table * option error :=
  match Create file with
  | Some err => (None, Some (Wrap err "os.Create error"))
  | None =>
      match records with
      | [] => (Some [], None)
      | first :: _ =>
          let headers := csvHeaders first in
          match WriterWrite file [] headers with
          | Some err => (Some [], Some (Wrap err "writer.Write Headers error"))
          | None =>
              match writeEntries file records [headers] with
              | (written, r) => (Some written, r)
              end
          end
      end
  end.

(** [writeSitesCSV]. *)
Definition writeSitesCSV (sites : list Site.site)
  : option Table * option error :=
  writeCSV "lastpass_sites.csv" sites.

(** [writeSecureNotesCSV]. *)
Definition writeSecureNotesCSV (notes : list Note.note)
  : option Table * option error :=
  writeCSV "lastpass_notes.csv" notes.

(** The flags of the program. *)
Record Flags := mkFlags {
  dbFile : string;
  defaultFolder : string;
  priorityFoldersRaw : string }.

(** What a run leaves behind: its exit code, the accumulators and the
    attachment files, and the two CSV tables. *)
Record Outcome := mkOutcome {
  exitCode : nat;
  world : World;
  sitesCSV : option Table;
  notesCSV : option Table }.

(** [flag.Parse()] on the arguments of the process.  The flag set of
    package [flag] is set to [ExitOnError]: the call either returns, and
    the three variables of [init] hold the values of [-db], [-f] and [-p]
    (their defaults where a flag is not given), or it ends the process
    itself, with the exit status package [flag] chooses (an undefined
    flag, a flag without its value, [-h]). *)
Class CommandLine := mkCommandLine {
  flagParse : list string -> Flags + nat }.

Context {commandLine : CommandLine}.

(** [main], for the arguments [os.Args[1:]]. *)
Definition main (args : list string) : Outcome :=
  match flagParse args with
  | inr status => mkOutcome status (mkWorld [] [] []) None None
  | inl flags =>
      if String.eqb (dbFile flags) ""
      then mkOutcome 0 (mkWorld [] [] []) None None
      else
        let priorityFolders := priorityFoldersOf (priorityFoldersRaw flags) in
        match ParseFile (dbFile flags) with
        | inr _ => mkOutcome 10 (mkWorld [] [] []) None None
        | inl db =>
            match mainCards db priorityFolders (defaultFolder flags)
                            (Database.Cards db) (mkCounters 0 0 0)
                            (mkWorld [] [] []) with
            | (w, inl _) => mkOutcome 11 w None None
            | (w, inr _) =>
                match writeSitesCSV (importedSites w) with
                | (sites, Some _) => mkOutcome 12 w sites None
                | (sites, None) =>
                    match writeSecureNotesCSV (importedNotes w) with
                    | (notes, Some _) => mkOutcome 13 w sites notes
                    | (notes, None) => mkOutcome 0 w sites notes
                    end
                end
            end
        end
  end.

End CsvOutput.

(** The table a CSV writer is meant to hand over for a list of records:
    nothing for no record, otherwise the header and one row each. *)
Definition tableOf {A : Type} {R : Reflect A} (records : list A) : Table :=
  match records with
  | [] => []
  | first :: _ => csvHeaders first :: map csvSlice records
  end.

(** A shell whose parser returns a database of four cards and on which
    every file operation succeeds. *)
Definition demoShell : Shell :=
  mkShell
    (fun _ =>
       inl (Database.mk [cardGone; cardTemplate; cardShared; cardVisa]
                        [Label.mk "7" "Credit Cards"; Label.mk "9" "Google"]))
    (fun _ => None) (fun _ _ _ => None).

(** A stand-in for [flag.Parse] that knows three shapes of command line
    (no argument, [-db file], [-db file -p list]) and ends the process
    with status 2 on every other. *)
Definition demoCommandLine : CommandLine :=
  mkCommandLine
    (fun args =>
       match args with
       | [] => inl (mkFlags "" "Imported" "")
       | [db; file] =>
           if String.eqb db "-db" then inl (mkFlags file "Imported" "")
           else inr 2
       | [db; file; p; list] =>
           if String.eqb db "-db" && String.eqb p "-p"
           then inl (mkFlags file "Imported" list)
           else inr 2
       | _ => inr 2
       end).

(** ** Strings *)

Lemma append_nil_r (s : string) : s ++ "" = s.
Proof. induction s as [|a s IH]; simpl; [reflexivity | now rewrite IH]. Qed.

Lemma append_assoc (s t u : string) : (s ++ t) ++ u = s ++ t ++ u.
Proof. induction s as [|a s IH]; simpl; [reflexivity | now rewrite IH]. Qed.

Lemma append_empty_l (s t : string) : s ++ t = "" -> s = "".
Proof. destruct s; simpl; [reflexivity | discriminate]. Qed.

Lemma eqb_empty_neq (s : string) : String.eqb s "" = false <-> s <> "".
Proof. apply String.eqb_neq. Qed.

(** ** The accumulators across the attachment dump *)

Section Frames.
Context {env : Env}.

Lemma dumpfile_frame name data w w' r :
  dumpfile name data w = (w', r) -> sameRecords w w'.
Proof.
  unfold dumpfile, sameRecords.
  destruct (MkdirAll (disk w) "attachments");
    [intros H; inversion H; auto|].
  destruct (WriteFile _ _ _); intros H; inversion H; auto.
Qed.

Lemma dumpFiles_frame title files : forall i w w' r,
  dumpFiles title i files w = (w', r) -> sameRecords w w'.
Proof.
  induction files as [|file files IH]; simpl; intros i w w' r H.
  - inversion H; split; reflexivity.
  - destruct (dumpfile _ _ w) as [w1 [e|]] eqn:D;
      apply dumpfile_frame in D; destruct D as [D1 D2].
    + inversion H; subst; split; assumption.
    + apply IH in H. destruct H as [H1 H2]. split; congruence.
Qed.

Lemma dumpImages_frame title images : forall i w w' r,
  dumpImages title i images w = (w', r) -> sameRecords w w'.
Proof.
  induction images as [|image images IH]; simpl; intros i w w' r H.
  - inversion H; split; reflexivity.
  - destruct (dumpfile _ _ w) as [w1 [e|]] eqn:D;
      apply dumpfile_frame in D; destruct D as [D1 D2].
    + inversion H; subst; split; assumption.
    + apply IH in H. destruct H as [H1 H2]. split; congruence.
Qed.

Lemma extractAttachments_frame c title w w' r :
  extractAttachments c title w = (w', r) -> sameRecords w w'.
Proof.
  unfold extractAttachments.
  destruct (dumpFiles _ _ _ w) as [w1 [e|]] eqn:D;
    apply dumpFiles_frame in D; destruct D as [D1 D2]; intros H.
  - inversion H; subst; split; assumption.
  - apply dumpImages_frame in H. destruct H as [H1 H2].
    split; congruence.
Qed.

(** On a reliable platform the dump never fails. *)
Lemma dumpfile_reliable name data w :
  reliable -> snd (dumpfile name data w) = None.
Proof.
  intros [Hm Hw]. unfold dumpfile. rewrite Hm, Hw. reflexivity.
Qed.

Lemma dumpFiles_reliable title files :
  reliable -> forall i w, snd (dumpFiles title i files w) = None.
Proof.
  intros R. induction files as [|file files IH]; simpl; intros i w.
  - reflexivity.
  - pose proof (dumpfile_reliable
                  (title ++ "_" ++ Go.Itoa i ++ "_" ++ File.Name file)
                  (File.Value file) w R) as D.
    destruct (dumpfile _ _ w) as [w1 [e|]]; simpl in D;
      [discriminate | apply IH].
Qed.

Lemma dumpImages_reliable title images :
  reliable -> forall i w, snd (dumpImages title i images w) = None.
Proof.
  intros R. induction images as [|image images IH]; simpl; intros i w.
  - reflexivity.
  - pose proof (dumpfile_reliable
                  (title ++ "_" ++ Go.Itoa i ++ ".jpg")
                  (Image.Value image) w R) as D.
    destruct (dumpfile _ _ w) as [w1 [e|]]; simpl in D;
      [discriminate | apply IH].
Qed.

Lemma extractAttachments_reliable c title w :
  reliable -> snd (extractAttachments c title w) = None.
Proof.
  intros R. unfold extractAttachments.
  pose proof (dumpFiles_reliable title (Card.Files c) R 0 w) as D.
  destruct (dumpFiles _ _ _ w) as [w1 [e|]]; simpl in D;
    [discriminate | apply dumpImages_reliable; assumption].
Qed.

(** What [importSite] does to the accumulators. *)
Lemma importSite_spec db c pf df title login pass url w w' r :
  importSite db c pf df title login pass url w = (w', r) ->
  importedNotes w' = importedNotes w
  /\ importedSites w'
     = (importedSites w
        ++ match r with
           | None => [siteRecord db c pf df title login pass url]
           | Some _ => []
           end)%list.
Proof.
  unfold importSite.
  destruct (extractAttachments c title w) as [w1 [e|]] eqn:A;
    apply extractAttachments_frame in A; destruct A as [A1 A2];
    intros H; inversion H; subst; simpl.
  - rewrite app_nil_r. auto.
  - rewrite A1, A2. auto.
Qed.

(** What [importSecureNote] does to the accumulators. *)
Lemma importSecureNote_spec db c pf df w w' r :
  importSecureNote db c pf df w = (w', r) ->
  importedSites w' = importedSites w
  /\ importedNotes w'
     = (importedNotes w
        ++ match r with
           | None => [noteRecord db c pf df]
           | Some _ => []
           end)%list.
Proof.
  unfold importSecureNote.
  destruct (extractAttachments c (noteTitle c) w) as [w1 [e|]] eqn:A;
    apply extractAttachments_frame in A; destruct A as [A1 A2];
    intros H; inversion H; subst; simpl.
  - rewrite app_nil_r. auto.
  - rewrite A1, A2. auto.
Qed.

End Frames.

(** ** The classifier, one card at a time *)

Section Classifier.
Context {env : Env}.

(** One visit of the loop of [parse], by the triplet found there. *)
Lemma parseLoop_step db c pf df i f rest flag w :
  parseLoop db c pf df i (f :: rest) flag w
  = match tripletAt c i f with
    | None => parseLoop db c pf df (S i) rest flag w
    | Some (title, login, pass, url) =>
        match importSite db c pf df title login pass url w with
        | (w', Some err) => (w', inl (Wrap err "importSite returned error"))
        | (w', None) => parseLoop db c pf df (S i) rest true w'
        end
    end.
Proof.
  unfold tripletAt. simpl.
  destruct (String.eqb (Field.FieldType f) "login"
            && negb (String.eqb (Field.Value f) "")); [|reflexivity].
  destruct (String.eqb (scanFirst "password" (skipn i (Card.Fields c))) ""
            || String.eqb (scanFirst "website" (skipn i (Card.Fields c))) "");
    [reflexivity|].
  destruct (String.eqb
              (siteTitle c (scanFirst "website" (skipn i (Card.Fields c))))
              ""); reflexivity.
Qed.

(** The loop appends the sites of the triplets it has passed, in order,
    and never a note; when it runs to its end it has passed them all and
    its flag tells whether there was one. *)
Lemma parseLoop_spec db c pf df : forall rest i flag w w' r,
  parseLoop db c pf df i rest flag w = (w', r) ->
  importedNotes w' = importedNotes w
  /\ exists done todo,
       tripletsFrom c i rest = (done ++ todo)%list
       /\ importedSites w'
          = (importedSites w ++ map (siteOf db c pf df) done)%list
       /\ match r with
          | inl _ => True
          | inr flag' =>
              todo = []
              /\ flag' = (flag || match done with [] => false | _ => true end)
          end.
Proof.
  induction rest as [|f rest IH]; intros i flag w w' r H.
  - simpl in H. inversion H; subst. split; [reflexivity|].
    exists [], []. simpl. rewrite app_nil_r, orb_false_r. auto.
  - rewrite parseLoop_step in H. simpl.
    destruct (tripletAt c i f) as [[[[title login] pass] url]|] eqn:T.
    + destruct (importSite db c pf df title login pass url w)
        as [w1 [e|]] eqn:I;
        apply importSite_spec in I; destruct I as [I1 I2].
      * inversion H; subst. split; [assumption|].
        exists [], ((i, (title, login, pass, url)) :: tripletsFrom c (S i) rest).
        simpl. auto.
      * apply IH in H. destruct H as [N [done [todo [E [S1 R]]]]].
        split; [congruence|].
        exists ((i, (title, login, pass, url)) :: done), todo.
        split; [simpl; now rewrite E|].
        split.
        { rewrite S1, I2. simpl. rewrite <- app_assoc. reflexivity. }
        destruct r as [e|flag']; [exact Logic.I|].
        destruct R as [R1 R2]. split; [assumption|].
        rewrite R2. simpl. now rewrite orb_true_r.
    + apply IH in H. exact H.
Qed.

(** [parse] as a whole: the sites of the card's triplets, or else one
    note; an error leaves the triplets after the failed one out. *)
Lemma parse_spec db c pf df w w' r :
  parse db c pf df w = (w', r) ->
  exists done todo,
    triplets c = (done ++ todo)%list
    /\ importedSites w'
       = (importedSites w ++ map (siteOf db c pf df) done)%list
    /\ match r with
       | Some _ => importedNotes w' = importedNotes w
       | None =>
           todo = []
           /\ importedNotes w'
              = (importedNotes w
                 ++ match done with
                    | [] => [noteRecord db c pf df]
                    | _ => []
                    end)%list
       end.
Proof.
  unfold parse, triplets.
  destruct (parseLoop db c pf df 0 (Card.Fields c) false w)
    as [w1 [e|flag]] eqn:L;
    apply parseLoop_spec in L;
    destruct L as [N [done [todo [E [S1 R]]]]]; intros H.
  - inversion H; subst. exists done, todo. auto.
  - destruct R as [R1 R2]. simpl in R2. subst todo.
    destruct flag.
    + inversion H; subst. exists done, [].
      destruct done; [discriminate|].
      rewrite N.
      split; [exact E|]. split; [exact S1|]. split; [reflexivity|].
      symmetry. apply app_nil_r.
    + destruct done; [|discriminate].
      destruct (importSecureNote db c pf df w1) as [w2 [e|]] eqn:I;
        apply importSecureNote_spec in I; destruct I as [I1 I2];
        inversion H; subst; exists [], []; simpl in *;
        rewrite I1, I2, S1, N; rewrite ?app_nil_r; auto.
Qed.

(** On a reliable platform [parse] returns no error. *)
Lemma parseLoop_reliable db c pf df :
  reliable -> forall rest i flag w,
  exists w' flag', parseLoop db c pf df i rest flag w = (w', inr flag').
Proof.
  intros R. induction rest as [|f rest IH]; intros i flag w.
  - simpl. eauto.
  - rewrite parseLoop_step.
    destruct (tripletAt c i f) as [[[[title login] pass] url]|]; [|apply IH].
    unfold importSite.
    pose proof (extractAttachments_reliable c title w R) as A.
    destruct (extractAttachments c title w) as [w1 [e|]]; simpl in A;
      [discriminate | apply IH].
Qed.

Lemma parse_reliable db c pf df w :
  reliable -> snd (parse db c pf df w) = None.
Proof.
  intros R. unfold parse.
  destruct (parseLoop_reliable db c pf df R (Card.Fields c) 0 false w)
    as [w1 [flag L]].
  rewrite L. destruct flag; [reflexivity|].
  unfold importSecureNote.
  pose proof (extractAttachments_reliable c (noteTitle c) w1 R) as A.
  destruct (extractAttachments c (noteTitle c) w1) as [w2 [e|]];
    simpl in A; [discriminate | reflexivity].
Qed.

End Classifier.

(** ** The forward scan and the triplets *)

Section Scan.

Lemma typed_true ty f :
  String.eqb (Field.FieldType f) ty && negb (String.eqb (Field.Value f) "")
  = true <-> typed ty f.
Proof.
  unfold typed.
  rewrite andb_true_iff, negb_true_iff, String.eqb_eq, String.eqb_neq.
  reflexivity.
Qed.

Lemma typed_false ty f :
  String.eqb (Field.FieldType f) ty && negb (String.eqb (Field.Value f) "")
  = false <-> ~ typed ty f.
Proof.
  rewrite <- typed_true. destruct (_ && _); split; intros H;
    try reflexivity; try discriminate; try (intros K; discriminate).
  exfalso. apply H. reflexivity.
Qed.

(** A non-empty result of the scan is the value of the first typed
    field. *)
Lemma scanFirst_sound ty : forall l v,
  scanFirst ty l = v -> v <> "" ->
  exists k fk,
    nth_error l k = Some fk /\ typed ty fk /\ Field.Value fk = v
    /\ forall k' f', k' < k -> nth_error l k' = Some f' -> ~ typed ty f'.
Proof.
  induction l as [|f l IH]; simpl; intros v E NE.
  - congruence.
  - destruct (String.eqb (Field.FieldType f) ty
              && negb (String.eqb (Field.Value f) "")) eqn:T.
    + exists 0, f. simpl. apply typed_true in T.
      repeat split; try assumption; try apply T.
      intros k' f' Hk. lia.
    + destruct (IH v E NE) as [k [fk [N [Ty [V F]]]]].
      exists (S k), fk. simpl. repeat split; try assumption; try apply Ty.
      intros [|k'] f' Hk Hn; simpl in Hn.
      * inversion Hn; subst. now apply typed_false.
      * apply (F k' f'); [lia | assumption].
Qed.

(** The scan returns the value of the first typed field. *)
Lemma scanFirst_complete ty : forall l k fk,
  nth_error l k = Some fk -> typed ty fk ->
  (forall k' f', k' < k -> nth_error l k' = Some f' -> ~ typed ty f') ->
  scanFirst ty l = Field.Value fk.
Proof.
  induction l as [|f l IH]; intros k fk N Ty F.
  - destruct k; discriminate.
  - simpl. destruct k as [|k]; simpl in N.
    + inversion N; subst. apply typed_true in Ty. now rewrite Ty.
    + assert (T : ~ typed ty f) by (apply (F 0 f); [lia | reflexivity]).
      apply typed_false in T. rewrite T.
      apply (IH k fk N Ty). intros k' f' Hk Hn.
      apply (F (S k') f'); [lia | exact Hn].
Qed.

(** The scan of [c.Fields[i:]] is the forward search from [i]. *)
Lemma scanFirst_firstFrom fields ty i v :
  (exists j, firstFrom fields ty i j v)
  <-> scanFirst ty (skipn i fields) = v /\ v <> "".
Proof.
  split.
  - intros [j [Hij [[fj [N [Ty V]]] F]]]. split.
    + rewrite <- V.
      apply (scanFirst_complete ty (skipn i fields) (j - i) fj).
      * rewrite nth_error_skipn. replace (i + (j - i)) with j by lia.
        exact N.
      * exact Ty.
      * intros k' f' Hk Hn. rewrite nth_error_skipn in Hn.
        apply (F (i + k') f'); [lia | exact Hn].
    + rewrite <- V. apply Ty.
  - intros [E NE].
    destruct (scanFirst_sound ty _ _ E NE) as [k [fk [N [Ty [V F]]]]].
    rewrite nth_error_skipn in N.
    exists (i + k). split; [lia|]. split.
    + exists fk. auto.
    + intros k' f' Hk Hn. apply (F (k' - i) f'); [lia|].
      rewrite nth_error_skipn. replace (i + (k' - i)) with k' by lia.
      exact Hn.
Qed.

(** The triplet found at a field is the qualifying login of the
    specification. *)
Lemma tripletAt_qualifies c i f title login pass url :
  nth_error (Card.Fields c) i = Some f ->
  tripletAt c i f = Some (title, login, pass, url)
  <-> qualifies c i login pass url /\ title = siteTitle c url.
Proof.
  intros N. unfold tripletAt, qualifies, scanned. split.
  - destruct (String.eqb (Field.FieldType f) "login"
              && negb (String.eqb (Field.Value f) "")) eqn:T;
      [|discriminate].
    destruct (String.eqb (scanFirst "password" (skipn i (Card.Fields c))) "")
      eqn:P; [discriminate|].
    destruct (String.eqb (scanFirst "website" (skipn i (Card.Fields c))) "")
      eqn:U; [discriminate|].
    simpl.
    destruct (String.eqb
                (siteTitle c (scanFirst "website" (skipn i (Card.Fields c))))
                "") eqn:Ti; [discriminate|].
    intros H. inversion H; subst. clear H.
    apply String.eqb_neq in P, U, Ti. apply typed_true in T.
    repeat split; try assumption.
    + exists f. auto.
    + apply scanFirst_firstFrom. auto.
    + apply scanFirst_firstFrom. auto.
  - intros [[[[f' [N' [Ty V]]] [Hp Hu]] Ti] Et].
    rewrite N in N'. inversion N'; subst f'. clear N'.
    apply scanFirst_firstFrom in Hp, Hu.
    destruct Hp as [Ep NEp]. destruct Hu as [Eu NEu].
    apply typed_true in Ty. rewrite Ty, Ep, Eu.
    apply String.eqb_neq in NEp, NEu, Ti. rewrite NEp, NEu. simpl.
    rewrite Ti. subst. reflexivity.
Qed.

(** Whatever the index, a triplet has four non-empty members. *)
Lemma tripletAt_nonempty c i f title login pass url :
  tripletAt c i f = Some (title, login, pass, url) ->
  url <> "" /\ login <> "" /\ pass <> "" /\ title <> "".
Proof.
  unfold tripletAt.
  destruct (String.eqb (Field.FieldType f) "login"
            && negb (String.eqb (Field.Value f) "")) eqn:T;
    [|discriminate].
  destruct (String.eqb (scanFirst "password" (skipn i (Card.Fields c))) "")
    eqn:P; [discriminate|].
  destruct (String.eqb (scanFirst "website" (skipn i (Card.Fields c))) "")
    eqn:U; [discriminate|].
  simpl.
  destruct (String.eqb
              (siteTitle c (scanFirst "website" (skipn i (Card.Fields c))))
              "") eqn:Ti; [discriminate|].
  intros H. inversion H; subst.
  apply String.eqb_neq in P, U, Ti. apply typed_true in T.
  destruct T as [_ T]. auto.
Qed.

Lemma skipn_cons_inv {A} : forall (l : list A) i a r,
  skipn i l = a :: r -> nth_error l i = Some a /\ skipn (S i) l = r.
Proof.
  induction l as [|x l IH]; intros i a r H.
  - destruct i; discriminate.
  - destruct i as [|i]; simpl in H.
    + inversion H; subst. auto.
    + apply IH in H. exact H.
Qed.

(** The triplets listed from index [i] on are those found at the
    indices [>= i]. *)
Lemma tripletsFrom_In c : forall rest i,
  skipn i (Card.Fields c) = rest ->
  forall j t,
    In (j, t) (tripletsFrom c i rest)
    <-> i <= j /\ exists f, nth_error (Card.Fields c) j = Some f
                            /\ tripletAt c j f = Some t.
Proof.
  induction rest as [|f rest IH]; intros i Hs j t.
  - simpl. split; [tauto|]. intros [Hij [f [N _]]].
    assert (L : nth_error (skipn i (Card.Fields c)) (j - i) = Some f).
    { rewrite nth_error_skipn. replace (i + (j - i)) with j by lia.
      exact N. }
    rewrite Hs in L. destruct (j - i); discriminate.
  - destruct (skipn_cons_inv _ _ _ _ Hs) as [N S'].
    specialize (IH (S i) S' j t).
    assert (Here : forall t0, tripletAt c i f = t0 ->
              (i = j /\ t0 = Some t) \/ In (j, t) (tripletsFrom c (S i) rest)
              <-> i <= j /\ exists f', nth_error (Card.Fields c) j = Some f'
                                       /\ tripletAt c j f' = Some t).
    { intros t0 E. rewrite IH. split.
      - intros [[Eij Et]|[Hij X]].
        + subst. split; [lia|]. exists f. split; [exact N | exact Et].
        + split; [lia | exact X].
      - intros [Hij [f' [N' E']]].
        destruct (Nat.eq_dec i j) as [Eij|Nij].
        + left. subst j. rewrite N in N'. inversion N'; subst f'.
          split; [reflexivity | congruence].
        + right. split; [lia|]. exists f'. auto. }
    simpl. destruct (tripletAt c i f) as [t0|] eqn:T.
    + rewrite <- (Here (Some t0) eq_refl). simpl. split.
      * intros [H|H]; [left; inversion H; auto | right; exact H].
      * intros [[E1 E2]|H]; [left; inversion E2; subst; reflexivity
                            | right; exact H].
    + rewrite <- (Here None eq_refl). split.
      * intros H. right. exact H.
      * intros [[_ E2]|H]; [discriminate | exact H].
Qed.

(** They are listed by increasing index. *)
Lemma tripletsFrom_sorted c : forall rest i,
  StronglySorted lt (map fst (tripletsFrom c i rest))
  /\ Forall (fun j => i <= j) (map fst (tripletsFrom c i rest)).
Proof.
  induction rest as [|f rest IH]; intros i; simpl.
  - split; constructor.
  - destruct (IH (S i)) as [S1 F1].
    assert (F2 : Forall (fun j => i <= j)
                        (map fst (tripletsFrom c (S i) rest))).
    { eapply Forall_impl; [|exact F1]. simpl. intros; lia. }
    destruct (tripletAt c i f); simpl; [|auto].
    split; constructor; auto.
Qed.

(** Every listed triplet was found at some field. *)
Lemma tripletsFrom_found c : forall rest i j t,
  In (j, t) (tripletsFrom c i rest) -> exists f, tripletAt c j f = Some t.
Proof.
  induction rest as [|f rest IH]; simpl; intros i j t H; [tauto|].
  destruct (tripletAt c i f) as [t0|] eqn:T.
  - destruct H as [H|H]; [inversion H; subst; eauto | eauto].
  - eauto.
Qed.

End Scan.

(** ** Sites and notes of one card *)

Section Records.
Context {env : Env}.

Lemma triplets_In c j t :
  In (j, t) (triplets c)
  <-> exists f, nth_error (Card.Fields c) j = Some f
                /\ tripletAt c j f = Some t.
Proof.
  unfold triplets.
  rewrite (tripletsFrom_In c (Card.Fields c) 0 eq_refl j t).
  split; [intros [_ H]; exact H | intros H; split; [lia | exact H]].
Qed.

Lemma triplets_index c i :
  In i (map fst (triplets c))
  <-> exists login pass url, qualifies c i login pass url.
Proof.
  rewrite in_map_iff. split.
  - intros [[j [[[title login] pass] url]] [E H]]. simpl in E. subst j.
    apply triplets_In in H. destruct H as [f [N T]].
    apply (tripletAt_qualifies c i f _ _ _ _ N) in T.
    exists login, pass, url. apply T.
  - intros [login [pass [url Q]]].
    pose proof Q as [[[f [N _]] _] _].
    exists (i, (siteTitle c url, login, pass, url)). split; [reflexivity|].
    apply triplets_In. exists f. split; [exact N|].
    apply (tripletAt_qualifies c i f _ _ _ _ N). auto.
Qed.

Lemma triplets_sites db c pf df : forall T,
  (forall j t, In (j, t) T -> In (j, t) (triplets c)) ->
  Forall2
    (fun i s =>
       qualifies c i (Site.Username s) (Site.Password s) (Site.URL s)
       /\ Site.Name s = siteTitle c (Site.URL s))
    (map fst T) (map (siteOf db c pf df) T).
Proof.
  induction T as [|[j [[[title login] pass] url]] T IH]; intros H; simpl.
  - constructor.
  - constructor.
    + assert (K : In (j, (title, login, pass, url)) (triplets c))
        by (apply H; left; reflexivity).
      apply triplets_In in K. destruct K as [f [N E]].
      apply (tripletAt_qualifies c j f _ _ _ _ N) in E. exact E.
    + apply IH. intros j' t' K. apply H. right. exact K.
Qed.

Lemma triplets_complete db c pf df : forall T,
  (forall j t, In (j, t) T -> In (j, t) (triplets c)) ->
  Forall completeSite (map (siteOf db c pf df) T).
Proof.
  induction T as [|[j [[[title login] pass] url]] T IH]; intros H; simpl.
  - constructor.
  - constructor.
    + assert (K : In (j, (title, login, pass, url)) (triplets c))
        by (apply H; left; reflexivity).
      apply tripletsFrom_found in K. destruct K as [f E].
      apply tripletAt_nonempty in E. exact E.
    + apply IH. intros j' t' K. apply H. right. exact K.
Qed.

(** Whatever [parse] returns, the sites it has appended are complete. *)
Lemma parse_complete db c pf df w :
  Forall completeSite (importedSites w) ->
  Forall completeSite (importedSites (fst (parse db c pf df w))).
Proof.
  intros F. destruct (parse db c pf df w) as [w' r] eqn:P.
  apply parse_spec in P. destruct P as [done [todo [E [S1 _]]]].
  simpl. rewrite S1. apply Forall_app. split; [exact F|].
  apply triplets_complete. intros j t K. rewrite E.
  apply in_or_app. left. exact K.
Qed.

Lemma importCards_complete db pf df : forall cards w,
  Forall completeSite (importedSites w) ->
  Forall completeSite (importedSites (fst (importCards db pf df cards w))).
Proof.
  induction cards as [|c cards IH]; simpl; intros w F; [exact F|].
  assert (F1 : Forall completeSite
                      (importedSites (fst (importCard db pf df c w)))).
  { unfold importCard. destruct (Card.Deleted c); [exact F|].
    destruct (Card.Template c); [exact F|].
    apply parse_complete. exact F. }
  destruct (importCard db pf df c w) as [w1 [e|]]; simpl in *;
    [exact F1 | apply IH; exact F1].
Qed.

End Records.

(** ** The claims of the specification *)

Section Claims.
Context {env : Env}.

(** C1.  The field extractor takes every login-typed field with a
    non-empty value; the login at index [i] is paired with the first
    non-empty password-typed field and the first non-empty website-typed
    field at an index [>= i].  When [parse] returns without error, the
    sites it has appended are, in field order, one for each qualifying
    login (scan successful and title non-empty after the fallback), each
    carrying that login, its forward-scanned password and website; there
    are exactly as many sites as qualifying logins, and with at least one
    of them no secure note is appended. *)
Theorem parse_one_site_per_qualifying_login
        db c pf df (w w' : World) :
  parse db c pf df w = (w', None) ->
  exists (idx : list nat) (sites : list Site.site),
    importedSites w' = (importedSites w ++ sites)%list
    /\ StronglySorted lt idx
    /\ (forall i, In i idx
                  <-> exists login pass url, qualifies c i login pass url)
    /\ Forall2
         (fun i s =>
            qualifies c i (Site.Username s) (Site.Password s) (Site.URL s))
         idx sites
    /\ List.length sites = List.length idx
    /\ (idx <> [] -> importedNotes w' = importedNotes w).
Proof.
  intros P. apply parse_spec in P.
  destruct P as [done [todo [E [S1 [T N]]]]]. subst todo.
  rewrite app_nil_r in E. subst done.
  exists (map fst (triplets c)), (map (siteOf db c pf df) (triplets c)).
  split; [exact S1|].
  split; [apply (tripletsFrom_sorted c (Card.Fields c) 0)|].
  split; [apply triplets_index|].
  split.
  - eapply Forall2_impl; [|apply triplets_sites; auto].
    intros i s [Q _]. exact Q.
  - split; [now rewrite !length_map|].
    intros NE. rewrite N. destruct (triplets c); [now elim NE|].
    apply app_nil_r.
Qed.

(** C3.  A card that is neither deleted nor a template, once imported
    without error, has yielded either one or more sites and no secure
    note, or no site and exactly one secure note whose username and
    password are empty: never both kinds, never nothing. *)
Theorem importCard_sites_or_one_note db pf df c (w w' : World) :
  Card.Deleted c = false ->
  Card.Template c = false ->
  importCard db pf df c w = (w', None) ->
  exists (sites : list Site.site) (notes : list Note.note),
    importedSites w' = (importedSites w ++ sites)%list
    /\ importedNotes w' = (importedNotes w ++ notes)%list
    /\ ((1 <= List.length sites /\ notes = [])
        \/ (sites = []
            /\ exists n, notes = [n] /\ Note.Username n = ""
                         /\ Note.Password n = "")).
Proof.
  intros D T. unfold importCard. rewrite D, T. intros P.
  apply parse_spec in P. destruct P as [done [todo [E [S1 [_ N]]]]].
  exists (map (siteOf db c pf df) done).
  destruct done as [|t done].
  - exists [noteRecord db c pf df]. split; [exact S1|]. split; [exact N|].
    right. split; [reflexivity|]. exists (noteRecord db c pf df). auto.
  - exists []. split; [exact S1|]. split; [exact N|].
    left. simpl. split; [lia | reflexivity].
Qed.

(** C8.  Starting from empty accumulators, whatever the cards and however
    the run ends, every site in the accumulator has a non-empty URL,
    username, password and name. *)
Theorem importedSites_all_complete db pf df cards (d : Disk) :
  Forall completeSite
         (importedSites (fst (importCards db pf df cards (mkWorld [] [] d)))).
Proof.
  apply importCards_complete. constructor.
Qed.

(** Whatever [parse] returns, every secure note it has appended has a
    non-empty name, and for a card with an empty title that name is
    ["SecureNote "] followed by the card's identifier. *)
Lemma note_name_nonempty db c pf df (w : World) :
  exists notes : list Note.note,
    importedNotes (fst (parse db c pf df w)) = (importedNotes w ++ notes)%list
    /\ Forall
         (fun n =>
            Note.Name n <> ""
            /\ (Card.Title c = "" ->
                Note.Name n = "SecureNote " ++ Card.ID c))
         notes.
Proof.
  destruct (parse db c pf df w) as [w' r] eqn:P.
  apply parse_spec in P. destruct P as [done [todo [E [S1 N]]]]. simpl.
  assert (K : Note.Name (noteRecord db c pf df) <> ""
              /\ (Card.Title c = "" ->
                  Note.Name (noteRecord db c pf df)
                  = "SecureNote " ++ Card.ID c)).
  { simpl. unfold noteTitle.
    destruct (String.eqb (Card.Title c) "") eqn:T.
    - split; [discriminate | reflexivity].
    - apply String.eqb_neq in T. split; [exact T | intros; contradiction]. }
  destruct r as [e|].
  - exists []. rewrite app_nil_r. split; [exact N | constructor].
  - destruct N as [_ N]. destruct done.
    + exists [noteRecord db c pf df]. split; [exact N|].
      constructor; [exact K | constructor].
    + exists []. split; [exact N | constructor].
Qed.

(** *** Extra blocks *)

Lemma withNotesAndLabels_eq db c extra :
  withNotesAndLabels db c extra = extra ++ Card.Notes c ++ labelsTail db c.
Proof.
  unfold withNotesAndLabels, labelsTail.
  destruct (Go.Join (cardLabels db c) ", ") as [|a labels]; simpl.
  - now rewrite append_nil_r.
  - now rewrite append_assoc.
Qed.

Lemma siteExtra_eq s : forall fields extra,
  siteExtra (Site.URL s) (Site.Username s) (Site.Password s) fields extra
  = extra ++ fieldDump (filter (keptBy s) fields).
Proof.
  induction fields as [|f fields IH]; intros extra; simpl.
  - now rewrite append_nil_r.
  - unfold keptBy at 1.
    destruct (String.eqb (Field.Value f) (Site.URL s)
              || String.eqb (Field.Value f) (Site.Username s)
              || String.eqb (Field.Value f) (Site.Password s)); simpl.
    + apply IH.
    + rewrite IH. unfold extraFormat. rewrite !append_assoc. reflexivity.
Qed.

Lemma noteExtra_eq : forall fields extra,
  noteExtra fields extra = extra ++ fieldDump fields.
Proof.
  induction fields as [|f fields IH]; intros extra; simpl.
  - now rewrite append_nil_r.
  - rewrite IH. unfold extraFormat. rewrite !append_assoc. reflexivity.
Qed.

Lemma keptBy_iff s f :
  keptBy s f = true
  <-> Field.Value f <> Site.URL s /\ Field.Value f <> Site.Username s
      /\ Field.Value f <> Site.Password s.
Proof.
  unfold keptBy.
  rewrite negb_true_iff, !orb_false_iff, !String.eqb_neq. tauto.
Qed.

Lemma siteRecord_extra db c pf df title login pass url :
  let s := siteRecord db c pf df title login pass url in
  Site.Extra s
  = fieldDump (filter (keptBy s) (Card.Fields c))
    ++ Card.Notes c ++ labelsTail db c.
Proof.
  intros s.
  pose proof (siteExtra_eq s (Card.Fields c) "") as E.
  simpl in E. subst s. simpl. rewrite withNotesAndLabels_eq.
  unfold siteRecord in E. simpl in E. rewrite E. reflexivity.
Qed.

(** C6.  The extra block of every site [parse] appends is the dump, in
    the card's field order, of exactly the fields whose value is none of
    the site's url, username and password, each as ["<name>: <value>"]
    and a blank line, followed by the card's notes and labels: no dumped
    field carries one of the three extracted values, whatever its type
    and however many fields share the value. *)
Theorem site_extra_skips_extracted_values db c pf df (w : World) :
  exists sites : list Site.site,
    importedSites (fst (parse db c pf df w)) = (importedSites w ++ sites)%list
    /\ Forall
         (fun s =>
            Site.Extra s
            = fieldDump (filter (keptBy s) (Card.Fields c))
              ++ Card.Notes c ++ labelsTail db c
            /\ (forall f,
                   In f (filter (keptBy s) (Card.Fields c))
                   <-> In f (Card.Fields c)
                       /\ Field.Value f <> Site.URL s
                       /\ Field.Value f <> Site.Username s
                       /\ Field.Value f <> Site.Password s))
         sites.
Proof.
  destruct (parse db c pf df w) as [w' r] eqn:P.
  apply parse_spec in P. destruct P as [done [todo [_ [S1 _]]]]. simpl.
  exists (map (siteOf db c pf df) done). split; [exact S1|].
  apply Forall_forall. intros s Hs. apply in_map_iff in Hs.
  destruct Hs as [[j [[[title login] pass] url]] [Es _]]. subst s.
  split.
  - apply siteRecord_extra.
  - intros f. rewrite filter_In, keptBy_iff. reflexivity.
Qed.

(** *** Folder resolution *)

Lemma matchesLabel_true f labels :
  matchesLabel f labels = true
  <-> exists l, In l labels /\ Go.EqualFold foldUnicode f l = true.
Proof.
  induction labels as [|l labels IH]; simpl.
  - split; [discriminate | intros [l [[] _]]].
  - destruct (Go.EqualFold foldUnicode f l) eqn:E.
    + split; [|reflexivity]. intros _. exists l. auto.
    + rewrite IH. split.
      * intros [l' [I E']]. exists l'. auto.
      * intros [l' [[I|I] E']]; [subst; congruence | exists l'; auto].
Qed.

Lemma firstPriority_Some labels : forall pf f,
  firstPriority pf labels = Some f
  <-> exists pre post,
        pf = (pre ++ f :: post)%list
        /\ (forall p, In p pre -> matchesLabel p labels = false)
        /\ matchesLabel f labels = true.
Proof.
  induction pf as [|p pf IH]; intros f; simpl.
  - split; [discriminate|]. intros [pre [post [E _]]].
    destruct pre; discriminate.
  - destruct (matchesLabel p labels) eqn:M.
    + split.
      * intros H. inversion H; subst. exists [], pf. simpl.
        split; [reflexivity|]. split; [tauto | exact M].
      * intros [pre [post [E [F Mf]]]]. destruct pre as [|p' pre].
        -- simpl in E. inversion E. reflexivity.
        -- simpl in E. inversion E; subst p'.
           rewrite (F p) in M; [discriminate | left; reflexivity].
    + rewrite IH. split.
      * intros [pre [post [E [F Mf]]]]. exists (p :: pre), post.
        split; [simpl; now rewrite E|]. split; [|exact Mf].
        intros q [Q|Q]; [subst; exact M | apply F; exact Q].
      * intros [pre [post [E [F Mf]]]]. destruct pre as [|p' pre].
        -- simpl in E. inversion E; subst. congruence.
        -- simpl in E. inversion E; subst. exists pre, post.
           split; [reflexivity|]. split; [|exact Mf].
           intros q Q. apply F. right. exact Q.
Qed.

Lemma firstPriority_None labels : forall pf,
  firstPriority pf labels = None
  <-> forall p, In p pf -> matchesLabel p labels = false.
Proof.
  induction pf as [|p pf IH]; simpl.
  - split; [intros _ p [] | reflexivity].
  - destruct (matchesLabel p labels) eqn:M.
    + split; [discriminate|]. intros F.
      rewrite (F p) in M; [discriminate | left; reflexivity].
    + rewrite IH. split.
      * intros F q [Q|Q]; [subst; exact M | apply F; exact Q].
      * intros F q Q. apply F. right. exact Q.
Qed.

(** C2.  Folder resolution has three cases.  A card without resolved
    labels gets the default folder.  Otherwise the first entry of the
    priority list, in the list's order, that folds equal to any label of
    the card is returned as the priority list spells it.  When no entry
    matches any label the result is the default folder, [" - "] and the
    first of the card's resolved labels.  One of the three cases always
    applies. *)
Theorem primaryCardLabel_three_cases db c pf df :
  let labels := cardLabels db c in
  let matches f :=
    exists l, In l labels /\ Go.EqualFold foldUnicode f l = true in
  (labels = [] -> primaryCardLabel db c pf df = df)
  /\ (forall pre f post,
         labels <> [] ->
         pf = (pre ++ f :: post)%list ->
         (forall p, In p pre -> ~ matches p) ->
         matches f ->
         primaryCardLabel db c pf df = f)
  /\ (forall label0 others,
         labels = label0 :: others ->
         (forall p, In p pf -> ~ matches p) ->
         primaryCardLabel db c pf df = df ++ " - " ++ label0)
  /\ (labels = []
      \/ (exists pre f post,
             pf = (pre ++ f :: post)%list
             /\ (forall p, In p pre -> ~ matches p) /\ matches f)
      \/ (forall p, In p pf -> ~ matches p)).
Proof.
  intros labels matches.
  assert (NM : forall p, matchesLabel p labels = false <-> ~ matches p).
  { intros p. unfold matches. rewrite <- matchesLabel_true.
    destruct (matchesLabel p labels); split; intros H;
      try reflexivity; try discriminate; try (intros K; discriminate).
    exfalso. apply H. reflexivity. }
  unfold primaryCardLabel. fold labels.
  split; [intros E; rewrite E; reflexivity|].
  split.
  { intros pre f post NE E F M.
    destruct labels as [|l0 ls] eqn:L; [now elim NE|].
    assert (S1 : firstPriority pf (l0 :: ls) = Some f).
    { apply firstPriority_Some. exists pre, post. split; [exact E|].
      split; [intros p Hp; apply NM, F, Hp | apply matchesLabel_true, M]. }
    rewrite S1. reflexivity. }
  split.
  { intros label0 others E F. rewrite E in *.
    assert (S1 : firstPriority pf (label0 :: others) = None).
    { apply firstPriority_None. intros p Hp. apply NM, F, Hp. }
    rewrite S1. reflexivity. }
  destruct labels as [|l0 ls] eqn:L; [left; reflexivity | right].
  destruct (firstPriority pf (l0 :: ls)) as [f|] eqn:S1.
  - left. apply firstPriority_Some in S1.
    destruct S1 as [pre [post [E [F M]]]]. exists pre, f, post.
    split; [exact E|].
    split; [intros p Hp; apply NM, F, Hp | apply matchesLabel_true, M].
  - right. intros p Hp. apply NM.
    apply (proj1 (firstPriority_None _ _) S1 p Hp).
Qed.

(** *** Secure notes and their note type *)

Lemma noteRecord_extra db c pf df :
  Note.Extra (noteRecord db c pf df)
  = (if String.eqb (noteTypePrefix (primaryCardLabel db c pf df)) ""
     then ""
     else noteTypePrefix (primaryCardLabel db c pf df) ++ Go.LF ++ Go.LF)
    ++ unprefixedExtra db c.
Proof.
  simpl. rewrite withNotesAndLabels_eq, noteExtra_eq. unfold unprefixedExtra.
  destruct (String.eqb (noteTypePrefix (primaryCardLabel db c pf df)) "");
    simpl; now rewrite ?append_assoc.
Qed.

Lemma noteTypePrefix_cases g :
  noteTypePrefix g = "" \/ In g noteTypeFolders.
Proof.
  unfold noteTypePrefix, noteTypeFolders.
  repeat match goal with
         | |- context [String.eqb g ?n] =>
             destruct (String.eqb_spec g n);
               [right; subst g; simpl; auto 12|]
         end.
  left. reflexivity.
Qed.

Lemma noteTypePrefix_listed g :
  In g noteTypeFolders -> noteTypePrefix g <> "".
Proof.
  unfold noteTypeFolders. simpl. intros H.
  repeat (destruct H as [H|H]; [subst g; discriminate|]). contradiction.
Qed.

Lemma noteTypePrefix_unlisted g :
  ~ In g noteTypeFolders -> noteTypePrefix g = "".
Proof.
  intros H. destruct (noteTypePrefix_cases g); [assumption | contradiction].
Qed.

(** The listed folder names are told apart by case folding: none folds
    equal to another. *)
Lemma noteTypeFolders_fold_apart a b :
  In a noteTypeFolders -> In b noteTypeFolders ->
  Go.EqualFold foldUnicode a b = true -> a = b.
Proof.
  unfold noteTypeFolders. simpl. intros Ha Hb.
  repeat (destruct Ha as [Ha|Ha]; [subst a|]); try contradiction;
    repeat (destruct Hb as [Hb|Hb]; [subst b|]); try contradiction;
    intros E; try reflexivity; simpl in E; discriminate.
Qed.

Lemma hasDash_composite : forall d l, hasDash (d ++ " - " ++ l) = true.
Proof.
  induction d as [|a d IH]; intros l.
  - destruct l; reflexivity.
  - specialize (IH l). simpl in *. rewrite IH. apply orb_true_r.
Qed.

Lemma composite_unlisted d l : ~ In (d ++ " - " ++ l) noteTypeFolders.
Proof.
  pose proof (hasDash_composite d l) as D.
  remember (d ++ " - " ++ l) as g eqn:Eg. clear Eg. intros H.
  unfold noteTypeFolders in H. simpl in H.
  repeat (destruct H as [H|H]; [subst g; discriminate|]).
  contradiction.
Qed.

(** C10, as the code has it.  The note-type lookup is exact,
    case-sensitive equality with the nine folder names of the [switch]:
    a note whose grouping is one of them starts with that folder's
    prefix and a blank line, and any other note has no prefix.  In
    particular a grouping that differs from a listed name only in letter
    case, and a composite ["default - label"] grouping, get no prefix. *)
Theorem noteType_prefix_needs_exact_name db c pf df (w : World) :
  exists notes : list Note.note,
    importedNotes (fst (parse db c pf df w)) = (importedNotes w ++ notes)%list
    /\ Forall
         (fun n =>
            (In (Note.Grouping n) noteTypeFolders ->
             noteTypePrefix (Note.Grouping n) <> ""
             /\ Note.Extra n
                = noteTypePrefix (Note.Grouping n) ++ Go.LF ++ Go.LF
                  ++ unprefixedExtra db c)
            /\ (~ In (Note.Grouping n) noteTypeFolders ->
                Note.Extra n = unprefixedExtra db c)
            /\ (forall name,
                   In name noteTypeFolders ->
                   Note.Grouping n <> name ->
                   Go.EqualFold foldUnicode (Note.Grouping n) name = true ->
                   Note.Extra n = unprefixedExtra db c)
            /\ (forall d l,
                   Note.Grouping n = d ++ " - " ++ l ->
                   Note.Extra n = unprefixedExtra db c))
         notes.
Proof.
  assert (U : ~ In (primaryCardLabel db c pf df) noteTypeFolders ->
              Note.Extra (noteRecord db c pf df) = unprefixedExtra db c).
  { intros H. rewrite noteRecord_extra, (noteTypePrefix_unlisted _ H).
    reflexivity. }
  assert (K : Forall
    (fun n =>
       (In (Note.Grouping n) noteTypeFolders ->
        noteTypePrefix (Note.Grouping n) <> ""
        /\ Note.Extra n
           = noteTypePrefix (Note.Grouping n) ++ Go.LF ++ Go.LF
             ++ unprefixedExtra db c)
       /\ (~ In (Note.Grouping n) noteTypeFolders ->
           Note.Extra n = unprefixedExtra db c)
       /\ (forall name,
              In name noteTypeFolders ->
              Note.Grouping n <> name ->
              Go.EqualFold foldUnicode (Note.Grouping n) name = true ->
              Note.Extra n = unprefixedExtra db c)
       /\ (forall d l,
              Note.Grouping n = d ++ " - " ++ l ->
              Note.Extra n = unprefixedExtra db c))
    [noteRecord db c pf df]).
  { constructor; [|constructor].
    change (Note.Grouping (noteRecord db c pf df))
      with (primaryCardLabel db c pf df).
    split; [|split; [exact U | split]].
    - intros H. pose proof (noteTypePrefix_listed _ H) as NE.
      split; [exact NE|]. rewrite noteRecord_extra.
      apply String.eqb_neq in NE. rewrite NE.
      now rewrite !append_assoc.
    - intros name Hn Hd E. apply U. intros Hg. apply Hd.
      apply (noteTypeFolders_fold_apart _ _ Hg Hn E).
    - intros d l E. apply U. rewrite E. apply composite_unlisted. }
  destruct (parse db c pf df w) as [w' r] eqn:P.
  apply parse_spec in P. destruct P as [done [todo [_ [_ N]]]]. simpl.
  destruct r as [e|].
  - exists []. rewrite app_nil_r. split; [exact N | constructor].
  - destruct N as [_ N]. destruct done.
    + exists [noteRecord db c pf df]. split; [exact N | exact K].
    + exists []. split; [exact N | constructor].
Qed.

(** C7.  A card whose resolved labels are ["Credit Cards"], with the
    priority list ["Banking"; "Credit Cards"] and no qualifying login,
    once parsed without error has yielded no site and exactly one secure
    note, filed under ["Credit Cards"], whose extra block starts with
    ["NoteType:Credit Card"] and a blank line, before the field dump. *)
Theorem credit_card_note db c df (w w' : World) :
  cardLabels db c = ["Credit Cards"] ->
  (forall i login pass url, ~ qualifies c i login pass url) ->
  parse db c ["Banking"; "Credit Cards"] df w = (w', None) ->
  importedSites w' = importedSites w
  /\ exists n : Note.note,
       importedNotes w' = (importedNotes w ++ [n])%list
       /\ Note.Grouping n = "Credit Cards"
       /\ Note.Extra n
          = "NoteType:Credit Card" ++ Go.LF ++ Go.LF
            ++ fieldDump (Card.Fields c) ++ Card.Notes c
            ++ Go.LF ++ Go.LF ++ "Labels: Credit Cards".
Proof.
  intros HL NQ P. apply parse_spec in P.
  destruct P as [done [todo [E [S1 [T N]]]]]. subst todo.
  rewrite app_nil_r in E. subst done.
  assert (T0 : triplets c = []).
  { destruct (triplets c) as [|[j t] T] eqn:ET; [reflexivity|].
    assert (I : In j (map fst (triplets c)))
      by (rewrite ET; left; reflexivity).
    apply triplets_index in I. destruct I as [login [pass [url Q]]].
    elim (NQ j login pass url Q). }
  rewrite T0 in *. simpl in S1. rewrite app_nil_r in S1.
  split; [exact S1|].
  assert (G : primaryCardLabel db c ["Banking"; "Credit Cards"] df
              = "Credit Cards")
    by (unfold primaryCardLabel; rewrite HL; reflexivity).
  exists (noteRecord db c ["Banking"; "Credit Cards"] df).
  split; [exact N|]. split; [exact G|].
  rewrite noteRecord_extra, G. unfold unprefixedExtra, labelsTail.
  rewrite HL. reflexivity.
Qed.

(** C9.  A card without a qualifying login, parsed without error, is
    filed as a secure note: no site and exactly one note are appended.
    The name of that note is never empty: for a card with an empty title
    it is ["SecureNote "] followed by the card's identifier, and for any
    other card it is the card's title. *)
Theorem secure_note_is_named db c pf df (w w' : World) :
  (forall i login pass url, ~ qualifies c i login pass url) ->
  parse db c pf df w = (w', None) ->
  importedSites w' = importedSites w
  /\ exists n : Note.note,
       importedNotes w' = (importedNotes w ++ [n])%list
       /\ Note.Name n <> ""
       /\ (Card.Title c = "" -> Note.Name n = "SecureNote " ++ Card.ID c)
       /\ (Card.Title c <> "" -> Note.Name n = Card.Title c).
Proof.
  intros NQ P. apply parse_spec in P.
  destruct P as [done [todo [E [S1 [T N]]]]]. subst todo.
  rewrite app_nil_r in E. subst done.
  assert (T0 : triplets c = []).
  { destruct (triplets c) as [|[j t] T] eqn:ET; [reflexivity|].
    assert (I : In j (map fst (triplets c)))
      by (rewrite ET; left; reflexivity).
    apply triplets_index in I. destruct I as [login [pass [url Q]]].
    elim (NQ j login pass url Q). }
  rewrite T0 in *. simpl in S1. rewrite app_nil_r in S1.
  split; [exact S1|].
  exists (noteRecord db c pf df). split; [exact N|].
  change (Note.Name (noteRecord db c pf df)) with (noteTitle c).
  unfold noteTitle.
  destruct (String.eqb (Card.Title c) "") eqn:Ti.
  - apply String.eqb_eq in Ti.
    split; [discriminate|]. split; [reflexivity | intros H; contradiction].
  - apply String.eqb_neq in Ti.
    split; [exact Ti|]. split; [intros H; contradiction | reflexivity].
Qed.

(** *** The title fallback *)

Lemma siteTitle_untitled c url :
  Card.Title c = "" -> siteTitle c url = stripAll url.
Proof. intros T. unfold siteTitle, stripAll. rewrite T. reflexivity. Qed.

(** C4, as the code has it.  For a card with an empty title, parsed
    without error, the sites appended are those of the logins whose
    forward scan succeeds and whose website, with every occurrence of
    ["http://"] and then every occurrence of ["https://"] removed
    ([strings.Replace] with [n = -1], case-sensitive), is not empty; that
    stripped website is the site's name, and a login whose stripped
    website is empty yields no site. *)
Theorem untitled_site_named_after_website db c pf df (w w' : World) :
  Card.Title c = "" ->
  parse db c pf df w = (w', None) ->
  exists (idx : list nat) (sites : list Site.site),
    importedSites w' = (importedSites w ++ sites)%list
    /\ Forall2
         (fun i s =>
            scanned c i (Site.Username s) (Site.Password s) (Site.URL s)
            /\ Site.Name s = stripAll (Site.URL s))
         idx sites
    /\ (forall i, In i idx
                  <-> exists login pass url,
                        scanned c i login pass url /\ stripAll url <> "").
Proof.
  intros T P. apply parse_spec in P.
  destruct P as [done [todo [E [S1 [Z _]]]]]. subst todo.
  rewrite app_nil_r in E. subst done.
  exists (map fst (triplets c)), (map (siteOf db c pf df) (triplets c)).
  split; [exact S1|]. split.
  - eapply Forall2_impl; [|apply triplets_sites; auto].
    intros i s [[Q _] N]. split; [exact Q|].
    rewrite N. apply siteTitle_untitled, T.
  - intros i. rewrite triplets_index. unfold qualifies.
    split; intros [login [pass [url [Q N]]]]; exists login, pass, url;
      (split; [exact Q|]);
      [rewrite <- (siteTitle_untitled c url T)
      | rewrite (siteTitle_untitled c url T)]; exact N.
Qed.

(** *** Attachment file names *)

Lemma replaceFrom_QueryEscape_cons c s :
  Go.replaceFrom "%20" " " None 0 (Go.QueryEscape (String c s))
  = Go.QueryEscape (String c "")
    ++ Go.replaceFrom "%20" " " None 0 (Go.QueryEscape s).
Proof. destruct c as [[] [] [] [] [] [] [] []]; reflexivity. Qed.

Lemma QueryEscape_cons c s :
  Go.QueryEscape (String c s) = Go.QueryEscape (String c "") ++ Go.QueryEscape s.
Proof.
  simpl. destruct (Ascii.eqb c " "); [reflexivity|].
  destruct (Go.shouldEscape c); reflexivity.
Qed.

(** The replacement of ["%20"] in [dumpfile] never finds anything to
    replace: [url.QueryEscape] has already turned every space into a
    plus sign. *)
Lemma Replace_QueryEscape_noop : forall s,
  Go.Replace (Go.QueryEscape s) "%20" " " (-1) = Go.QueryEscape s.
Proof.
  intros s. unfold Go.Replace. simpl.
  induction s as [|c s IH]; [reflexivity|].
  rewrite replaceFrom_QueryEscape_cons, IH. symmetry. apply QueryEscape_cons.
Qed.

Lemma hasSpace_QueryEscape : forall s, hasSpace (Go.QueryEscape s) = false.
Proof.
  induction s as [|c s IH]; [reflexivity|].
  destruct c as [[] [] [] [] [] [] [] []]; exact IH.
Qed.

(** What [dumpfile] writes, for any name: the query-escaped name, which
    holds no space at all. *)
Lemma dumpfile_written_name name data (w w' : World) :
  dumpfile name data w = (w', None) ->
  disk w'
  = (disk w
     ++ [(("attachments" ++ String PathSeparator ""
            ++ Go.QueryEscape name)%string, data)])%list
  /\ hasSpace (Go.QueryEscape name) = false.
Proof.
  unfold dumpfile. rewrite Replace_QueryEscape_noop.
  destruct (MkdirAll (disk w) "attachments"); [discriminate|].
  destruct (WriteFile _ _ _); [discriminate|].
  intros H. inversion H; subst. simpl.
  split; [reflexivity | apply hasSpace_QueryEscape].
Qed.

End Claims.

(** C5.  The attachments of a card titled ["My Bank"], a file
    ["tax form.pdf"] and an image, are written under the names
    ["My+Bank_0_tax+form.pdf"] and ["My+Bank_0.jpg"]: the spaces of the
    constructed names ["My Bank_0_tax form.pdf"] and ["My Bank_0.jpg"]
    are not preserved, they have become plus signs. *)
Theorem attachment_names_lose_their_spaces :
  @extractAttachments unix cardScan "My Bank" emptyWorld
  = (mkWorld [] []
       [ ("attachments/My+Bank_0_tax+form.pdf", [Byte.x25; Byte.x50]);
         ("attachments/My+Bank_0.jpg", [Byte.xff]) ],
     None).
Proof. vm_compute. reflexivity. Qed.

(** C4 as the specification states it fails: the website of this untitled
    card names a second address, and the site's name has lost both
    occurrences of ["http://"], not only the first. *)
Lemma title_fallback_replaces_every_occurrence :
  Card.Title cardRedirect = ""
  /\ snd (@parse unix noLabels cardRedirect [] "Imported" emptyWorld) = None
  /\ exists s : Site.site,
       importedSites
         (fst (@parse unix noLabels cardRedirect [] "Imported" emptyWorld))
       = [s]
       /\ Site.URL s = "http://a.example/?next=http://b.example"
       /\ Site.Name s = "a.example/?next=b.example"
       /\ stripFirstMatch (Site.URL s) = "a.example/?next=http://b.example"
       /\ Site.Name s <> stripFirstMatch (Site.URL s).
Proof.
  split; [reflexivity|]. split; [vm_compute; reflexivity|].
  eexists. split; [vm_compute; reflexivity|].
  repeat split; try (vm_compute; reflexivity).
  vm_compute. discriminate.
Qed.

(** C10 as the specification states it fails on the count: the folder
    names that get a note-type prefix are not ten, the [switch] lists
    nine. *)
Lemma noteType_folders_are_not_ten :
  ~ exists names : list string,
      List.length names = 10 /\ NoDup names
      /\ forall g, In g names <-> noteTypePrefix g <> "".
Proof.
  intros [names [L [ND H]]].
  assert (I : incl names noteTypeFolders).
  { intros g Hg. apply H in Hg.
    destruct (noteTypePrefix_cases g); [contradiction | assumption]. }
  pose proof (NoDup_incl_length ND I) as K.
  rewrite L in K. simpl in K. lia.
Qed.

(** ** The claims at concrete cards *)

(** C1 at a card with two login blocks, of which only the first has a
    website after it. *)
Lemma parse_one_site_per_qualifying_login_witness :
  @parse unix bankLabels cardTwo ["Work"] "Imported" emptyWorld
  = (fst (@parse unix bankLabels cardTwo ["Work"] "Imported" emptyWorld), None)
  /\ exists (idx : list nat) (sites : list Site.site),
       importedSites
         (fst (@parse unix bankLabels cardTwo ["Work"] "Imported" emptyWorld))
       = (importedSites emptyWorld ++ sites)%list
       /\ StronglySorted lt idx
       /\ (forall i, In i idx
                     <-> exists login pass url,
                           qualifies cardTwo i login pass url)
       /\ Forall2
            (fun i s =>
               qualifies cardTwo i (Site.Username s) (Site.Password s)
                         (Site.URL s))
            idx sites
       /\ List.length sites = List.length idx
       /\ (idx <> [] ->
           importedNotes
             (fst (@parse unix bankLabels cardTwo ["Work"] "Imported"
                          emptyWorld))
           = importedNotes emptyWorld).
Proof.
  split; [vm_compute; reflexivity|].
  apply (@parse_one_site_per_qualifying_login
           unix bankLabels cardTwo ["Work"] "Imported" emptyWorld).
  vm_compute. reflexivity.
Defined.

(** C3 at the same card, and the card is neither deleted nor a
    template. *)
Lemma importCard_sites_or_one_note_witness :
  Card.Deleted cardTwo = false
  /\ Card.Template cardTwo = false
  /\ @importCard unix bankLabels ["Work"] "Imported" cardTwo emptyWorld
     = (fst (@importCard unix bankLabels ["Work"] "Imported" cardTwo
                         emptyWorld), None)
  /\ exists (sites : list Site.site) (notes : list Note.note),
       importedSites
         (fst (@importCard unix bankLabels ["Work"] "Imported" cardTwo
                           emptyWorld))
       = (importedSites emptyWorld ++ sites)%list
       /\ importedNotes
            (fst (@importCard unix bankLabels ["Work"] "Imported" cardTwo
                              emptyWorld))
          = (importedNotes emptyWorld ++ notes)%list
       /\ ((1 <= List.length sites /\ notes = [])
           \/ (sites = []
               /\ exists n, notes = [n] /\ Note.Username n = ""
                            /\ Note.Password n = "")).
Proof.
  split; [reflexivity|]. split; [reflexivity|].
  split; [vm_compute; reflexivity|].
  apply (@importCard_sites_or_one_note
           unix bankLabels ["Work"] "Imported" cardTwo emptyWorld).
  - reflexivity.
  - reflexivity.
  - vm_compute. reflexivity.
Defined.

(** C7 at a credit card with two fields, neither of them a login. *)
Lemma credit_card_note_witness :
  @cardLabels bankLabels cardVisa = ["Credit Cards"]
  /\ (forall i login pass url, ~ qualifies cardVisa i login pass url)
  /\ @parse unix bankLabels cardVisa ["Banking"; "Credit Cards"] "Imported"
            emptyWorld
     = (fst (@parse unix bankLabels cardVisa ["Banking"; "Credit Cards"]
                    "Imported" emptyWorld), None)
  /\ importedSites
       (fst (@parse unix bankLabels cardVisa ["Banking"; "Credit Cards"]
                    "Imported" emptyWorld))
     = importedSites emptyWorld
  /\ exists n : Note.note,
       importedNotes
         (fst (@parse unix bankLabels cardVisa ["Banking"; "Credit Cards"]
                      "Imported" emptyWorld))
       = (importedNotes emptyWorld ++ [n])%list
       /\ Note.Grouping n = "Credit Cards"
       /\ Note.Extra n
          = "NoteType:Credit Card" ++ Go.LF ++ Go.LF
            ++ fieldDump (Card.Fields cardVisa) ++ Card.Notes cardVisa
            ++ Go.LF ++ Go.LF ++ "Labels: Credit Cards".
Proof.
  assert (NQ : forall i login pass url, ~ qualifies cardVisa i login pass url).
  { intros i login pass url [[[f [N [[Ty _] _]]] _] _].
    destruct i as [|[|i]]; simpl in N.
    - inversion N; subst f. discriminate Ty.
    - inversion N; subst f. discriminate Ty.
    - destruct i; discriminate N. }
  split; [reflexivity|]. split; [exact NQ|].
  split; [vm_compute; reflexivity|].
  apply (@credit_card_note unix bankLabels cardVisa "Imported" emptyWorld).
  - reflexivity.
  - exact NQ.
  - vm_compute. reflexivity.
Defined.

(** C9 at the same card, which has no title: its note is named after
    its identifier. *)
Lemma secure_note_is_named_witness :
  (forall i login pass url, ~ qualifies cardVisa i login pass url)
  /\ @parse unix bankLabels cardVisa [] "Imported" emptyWorld
     = (fst (@parse unix bankLabels cardVisa [] "Imported" emptyWorld), None)
  /\ importedSites
       (fst (@parse unix bankLabels cardVisa [] "Imported" emptyWorld))
     = importedSites emptyWorld
  /\ exists n : Note.note,
       importedNotes
         (fst (@parse unix bankLabels cardVisa [] "Imported" emptyWorld))
       = (importedNotes emptyWorld ++ [n])%list
       /\ Note.Name n <> ""
       /\ (Card.Title cardVisa = "" ->
           Note.Name n = "SecureNote " ++ Card.ID cardVisa)
       /\ (Card.Title cardVisa <> "" -> Note.Name n = Card.Title cardVisa).
Proof.
  assert (NQ : forall i login pass url, ~ qualifies cardVisa i login pass url).
  { intros i login pass url [[[f [N [[Ty _] _]]] _] _].
    destruct i as [|[|i]]; simpl in N.
    - inversion N; subst f. discriminate Ty.
    - inversion N; subst f. discriminate Ty.
    - destruct i; discriminate N. }
  split; [exact NQ|]. split; [vm_compute; reflexivity|].
  apply (@secure_note_is_named unix bankLabels cardVisa [] "Imported"
                               emptyWorld).
  - exact NQ.
  - vm_compute. reflexivity.
Defined.

(** C4, as the code has it, at the untitled card whose website names a
    second address. *)
Lemma untitled_site_named_after_website_witness :
  Card.Title cardRedirect = ""
  /\ @parse unix noLabels cardRedirect [] "Imported" emptyWorld
     = (fst (@parse unix noLabels cardRedirect [] "Imported" emptyWorld), None)
  /\ exists (idx : list nat) (sites : list Site.site),
       importedSites
         (fst (@parse unix noLabels cardRedirect [] "Imported" emptyWorld))
       = (importedSites emptyWorld ++ sites)%list
       /\ Forall2
            (fun i s =>
               scanned cardRedirect i (Site.Username s) (Site.Password s)
                       (Site.URL s)
               /\ Site.Name s = stripAll (Site.URL s))
            idx sites
       /\ (forall i, In i idx
                     <-> exists login pass url,
                           scanned cardRedirect i login pass url
                           /\ stripAll url <> "").
Proof.
  split; [reflexivity|]. split; [vm_compute; reflexivity|].
  apply (@untitled_site_named_after_website
           unix noLabels cardRedirect [] "Imported" emptyWorld).
  - reflexivity.
  - vm_compute. reflexivity.
Defined.

(** ** The library model and the program at a few inputs *)

Example Itoa_12 : Go.Itoa 12 = "12".
Proof. reflexivity. Qed.

Example Replace_every_occurrence :
  Go.Replace "http://a/http://b" "http://" "" (-1) = "a/b".
Proof. reflexivity. Qed.

Example Replace_first_occurrence :
  Go.Replace "http://a/http://b" "http://" "" 1 = "a/http://b".
Proof. reflexivity. Qed.

Example Replace_is_one_pass :
  Go.Replace "hhttp://ttp://x" "http://" "" (-1) = "http://x".
Proof. reflexivity. Qed.

Example QueryEscape_space_and_percent :
  Go.QueryEscape "a b/c%20.txt" = "a+b%2Fc%2520.txt".
Proof. reflexivity. Qed.

Example EqualFold_ascii :
  forall u, Go.EqualFold u "credit cards" "Credit CARDS" = true.
Proof. reflexivity. Qed.

(** The round trip of the specification: an untitled card with one login
    block and no label. *)
Example parse_cardBob :
  @parse unix noLabels cardBob [] "Imported" emptyWorld
  = (mkWorld
       [ Site.mk "https://example.com" "" "bob" "pw1" "" "" "example.com"
                 "Imported" "" ]
       [] [],
     None).
Proof. vm_compute. reflexivity. Qed.

(** A priority folder spelled in lower case is returned as spelled, and
    then no note type is recognised. *)
Example parse_cardVisa_lower_case :
  exists n : Note.note,
    importedNotes
      (fst (@parse unix bankLabels cardVisa ["credit cards"] "Imported"
                   emptyWorld))
    = [n]
    /\ Note.Grouping n = "credit cards"
    /\ Note.Extra n = unprefixedExtra bankLabels cardVisa.
Proof.
  eexists. split; [vm_compute; reflexivity|].
  split; vm_compute; reflexivity.
Qed.

(** A card without fields still yields a record: a secure note. *)
Example parse_cardEmpty :
  @parse unix noLabels cardEmpty [] "Imported" emptyWorld
  = (mkWorld [] [ Note.mk "http://sn" "" "" "" "SecureNote 46" "Imported" "" ]
             [],
     None).
Proof. vm_compute. reflexivity. Qed.

(** ** The label resolver *)

Section Labels.
Context {env : Env}.

Lemma cardLabels_inner (id : string) : forall (table : list Label.t) acc,
  fold_left
    (fun labels label =>
       if String.eqb (Label.ID label) id
       then (labels ++ [Label.Name label])%list
       else labels)
    table acc
  = (acc ++ map Label.Name
              (filter (fun label => String.eqb (Label.ID label) id) table))%list.
Proof.
  induction table as [|l table IH]; intros acc; simpl.
  - now rewrite app_nil_r.
  - rewrite IH. destruct (String.eqb (Label.ID l) id); simpl.
    + now rewrite <- app_assoc.
    + reflexivity.
Qed.

Lemma cardLabels_outer (db : Database.t) : forall ids acc,
  fold_left
    (fun labels id =>
       fold_left
         (fun labels label =>
            if String.eqb (Label.ID label) id
            then (labels ++ [Label.Name label])%list
            else labels)
         (Database.Labels db) labels)
    ids acc
  = (acc ++ flat_map (labelNames db) ids)%list.
Proof.
  induction ids as [|id ids IH]; intros acc; simpl.
  - now rewrite app_nil_r.
  - rewrite IH, cardLabels_inner. unfold labelNames.
    now rewrite <- app_assoc.
Qed.

Lemma cardLabels_eq db c :
  cardLabels db c = flat_map (labelNames db) (Card.LabelIDs c).
Proof. unfold cardLabels. apply cardLabels_outer. Qed.

(** X1.  The resolved labels are, for each identifier of the card in the
    card's own order, the names of all table rows carrying that
    identifier, in table order: an identifier without a row contributes
    nothing, one with several rows contributes each of them. *)
Theorem cardLabels_by_card_order db c :
  cardLabels db c = flat_map (labelNames db) (Card.LabelIDs c)
  /\ forall name,
       In name (cardLabels db c)
       <-> exists id label,
             In id (Card.LabelIDs c) /\ In label (Database.Labels db)
             /\ Label.ID label = id /\ Label.Name label = name.
Proof.
  split; [apply cardLabels_eq|].
  intros name. rewrite cardLabels_eq, in_flat_map. unfold labelNames.
  split.
  - intros [id [Hid Hn]]. apply in_map_iff in Hn.
    destruct Hn as [label [En Hl]]. apply filter_In in Hl.
    destruct Hl as [Hl E]. apply String.eqb_eq in E.
    exists id, label. auto.
  - intros [id [label [Hid [Hl [E En]]]]]. exists id. split; [exact Hid|].
    apply in_map_iff. exists label. split; [exact En|].
    apply filter_In. split; [exact Hl | now apply String.eqb_eq].
Qed.

Lemma labelNames_dangling db id :
  (forall label, In label (Database.Labels db) -> Label.ID label <> id) ->
  labelNames db id = [].
Proof.
  unfold labelNames. induction (Database.Labels db) as [|l table IH];
    intros H; simpl; [reflexivity|].
  destruct (String.eqb_spec (Label.ID l) id) as [E|NE].
  - exfalso. apply (H l); [left; reflexivity | exact E].
  - apply IH. intros l' Hl. apply H. right. exact Hl.
Qed.

Lemma flat_map_nil {A B} (f : A -> list B) : forall l,
  (forall a, In a l -> f a = []) -> flat_map f l = [].
Proof.
  induction l as [|a l IH]; intros H; simpl; [reflexivity|].
  rewrite (H a), IH; [reflexivity | | left; reflexivity].
  intros b Hb. apply H. right. exact Hb.
Qed.

(** X2.  A card all of whose label references dangle (no table row has
    one of its identifiers) is filed like a card without labels: under
    the default folder, whatever the priority list. *)
Theorem dangling_labels_give_default_folder db c pf df :
  (forall id label,
      In id (Card.LabelIDs c) -> In label (Database.Labels db) ->
      Label.ID label <> id) ->
  cardLabels db c = [] /\ primaryCardLabel db c pf df = df.
Proof.
  intros H.
  assert (E : cardLabels db c = []).
  { rewrite cardLabels_eq. apply flat_map_nil.
    intros id Hid. apply labelNames_dangling.
    intros label Hl. apply H; assumption. }
  split; [exact E|]. unfold primaryCardLabel. rewrite E. reflexivity.
Qed.

Lemma matchesLabel_members f labels labels' :
  (forall l, In l labels <-> In l labels') ->
  matchesLabel f labels = matchesLabel f labels'.
Proof.
  intros H.
  destruct (matchesLabel f labels) eqn:M; symmetry.
  - apply matchesLabel_true in M. destruct M as [l [I E]].
    apply matchesLabel_true. exists l. split; [now apply H | exact E].
  - destruct (matchesLabel f labels') eqn:M'; [|reflexivity].
    apply matchesLabel_true in M'. destruct M' as [l [I E]].
    assert (T : matchesLabel f labels = true)
      by (apply matchesLabel_true; exists l; split; [now apply H | exact E]).
    congruence.
Qed.

Lemma firstPriority_members labels labels' :
  (forall l, In l labels <-> In l labels') ->
  forall pf, firstPriority pf labels = firstPriority pf labels'.
Proof.
  intros H. induction pf as [|f pf IH]; simpl; [reflexivity|].
  rewrite (matchesLabel_members f labels labels' H), IH. reflexivity.
Qed.

(** X3.  When some entry of the priority list matches a label of the
    card, the resolved folder depends on the card's labels only as a
    set: neither their order, nor repetitions, nor the default folder
    change it. *)
Theorem priority_match_ignores_label_order db c db' c' pf df df' :
  (forall l, In l (cardLabels db c) <-> In l (cardLabels db' c')) ->
  (exists f l, In f pf /\ In l (cardLabels db c)
               /\ Go.EqualFold foldUnicode f l = true) ->
  primaryCardLabel db c pf df = primaryCardLabel db' c' pf df'.
Proof.
  intros H [f [l [Hf [Hl E]]]].
  unfold primaryCardLabel.
  rewrite <- (firstPriority_members _ _ H pf).
  destruct (firstPriority pf (cardLabels db c)) as [g|] eqn:F.
  - destruct (cardLabels db c) as [|l0 ls] eqn:L; [contradiction|].
    destruct (cardLabels db' c') as [|l0' ls'] eqn:L'; [|reflexivity].
    exfalso. apply (proj1 (H l0)). left. reflexivity.
  - exfalso.
    pose proof (proj1 (firstPriority_None _ _) F f Hf) as M.
    assert (T : matchesLabel f (cardLabels db c) = true)
      by (apply matchesLabel_true; exists l; auto).
    congruence.
Qed.

End Labels.

(** ** The attachment dump and the disk *)

Section Attachments.
Context {env : Env}.

Lemma dumpfile_disk name data (w w' : World) r :
  dumpfile name data w = (w', r) ->
  disk w'
  = (disk w ++ match r with
               | None => [(attachmentPath name, data)]
               | Some _ => []
               end)%list.
Proof.
  unfold dumpfile, attachmentPath. rewrite Replace_QueryEscape_noop.
  destruct (MkdirAll (disk w) "attachments");
    [intros H; inversion H; subst; now rewrite app_nil_r|].
  destruct (WriteFile _ _ _); intros H; inversion H; subst; simpl;
    [now rewrite app_nil_r | reflexivity].
Qed.

Lemma dumpFiles_disk title files : forall i (w w' : World),
  dumpFiles title i files w = (w', None) ->
  disk w' = (disk w ++ fileEntries title i files)%list.
Proof.
  induction files as [|file files IH]; simpl; intros i w w' H.
  - inversion H; subst. now rewrite app_nil_r.
  - destruct (dumpfile _ _ w) as [w1 [e|]] eqn:D; [discriminate|].
    apply dumpfile_disk in D. apply IH in H. rewrite H, D.
    now rewrite <- app_assoc.
Qed.

Lemma dumpImages_disk title images : forall i (w w' : World),
  dumpImages title i images w = (w', None) ->
  disk w' = (disk w ++ imageEntries title i images)%list.
Proof.
  induction images as [|image images IH]; simpl; intros i w w' H.
  - inversion H; subst. now rewrite app_nil_r.
  - destruct (dumpfile _ _ w) as [w1 [e|]] eqn:D; [discriminate|].
    apply dumpfile_disk in D. apply IH in H. rewrite H, D.
    now rewrite <- app_assoc.
Qed.

Lemma extractAttachments_disk c title (w w' : World) :
  extractAttachments c title w = (w', None) ->
  disk w' = (disk w ++ attachmentEntries c title)%list.
Proof.
  unfold extractAttachments, attachmentEntries.
  destruct (dumpFiles title 0 (Card.Files c) w) as [w1 [e|]] eqn:D;
    [discriminate|].
  apply dumpFiles_disk in D. intros H. apply dumpImages_disk in H.
  rewrite H, D. now rewrite <- app_assoc.
Qed.

Lemma fileEntries_data title : forall files i,
  map snd (fileEntries title i files) = map File.Value files.
Proof.
  induction files as [|f files IH]; intros i; simpl;
    [reflexivity | now rewrite IH].
Qed.

Lemma imageEntries_data title : forall images i,
  map snd (imageEntries title i images) = map Image.Value images.
Proof.
  induction images as [|f images IH]; intros i; simpl;
    [reflexivity | now rewrite IH].
Qed.

Lemma attachmentEntries_length c title :
  List.length (attachmentEntries c title)
  = List.length (Card.Files c) + List.length (Card.Images c).
Proof.
  rewrite <- (length_map snd). unfold attachmentEntries.
  rewrite map_app, fileEntries_data, imageEntries_data, length_app,
    !length_map.
  reflexivity.
Qed.

(** X4.  A dump that returns no error has written one file per
    attachment and nothing else: first the file attachments in their
    order, then the images in theirs, each with its bytes unchanged,
    the file numbered [i] in its list under the escaped name
    [<title>_<i>_<name>] or [<title>_<i>.jpg]. *)
Theorem attachments_written_in_order c title (w w' : World) :
  extractAttachments c title w = (w', None) ->
  disk w' = (disk w ++ attachmentEntries c title)%list
  /\ map snd (attachmentEntries c title)
     = (map File.Value (Card.Files c) ++ map Image.Value (Card.Images c))%list
  /\ (forall i file,
         nth_error (Card.Files c) i = Some file ->
         nth_error (attachmentEntries c title) i
         = Some (attachmentPath
                   (title ++ "_" ++ Go.Itoa i ++ "_" ++ File.Name file),
                 File.Value file))
  /\ (forall i image,
         nth_error (Card.Images c) i = Some image ->
         nth_error (attachmentEntries c title) (List.length (Card.Files c) + i)
         = Some (attachmentPath (title ++ "_" ++ Go.Itoa i ++ ".jpg"),
                 Image.Value image)).
Proof.
  intros H. split; [now apply extractAttachments_disk|].
  split.
  { unfold attachmentEntries.
    now rewrite map_app, fileEntries_data, imageEntries_data. }
  assert (F : forall files k i file,
             nth_error files i = Some file ->
             nth_error (fileEntries title k files) i
             = Some (attachmentPath
                       (title ++ "_" ++ Go.Itoa (k + i) ++ "_"
                        ++ File.Name file),
                     File.Value file)).
  { induction files as [|f files IH]; intros k i file N.
    - destruct i; discriminate.
    - destruct i as [|i]; simpl in *.
      + inversion N; subst. now rewrite Nat.add_0_r.
      + rewrite (IH (S k) i file N).
        now replace (S k + i) with (k + S i) by lia. }
  assert (G : forall images k i image,
             nth_error images i = Some image ->
             nth_error (imageEntries title k images) i
             = Some (attachmentPath
                       (title ++ "_" ++ Go.Itoa (k + i) ++ ".jpg"),
                     Image.Value image)).
  { induction images as [|f images IH]; intros k i image N.
    - destruct i; discriminate.
    - destruct i as [|i]; simpl in *.
      + inversion N; subst. now rewrite Nat.add_0_r.
      + rewrite (IH (S k) i image N).
        now replace (S k + i) with (k + S i) by lia. }
  assert (LF : forall files k,
             List.length (fileEntries title k files) = List.length files).
  { intros files k. rewrite <- (length_map snd), fileEntries_data.
    apply length_map. }
  split.
  - intros i file N. unfold attachmentEntries.
    rewrite nth_error_app1.
    + apply (F _ 0 i file N).
    + rewrite LF. apply nth_error_Some. congruence.
  - intros i image N. unfold attachmentEntries.
    rewrite nth_error_app2; rewrite LF; [|lia].
    replace (List.length (Card.Files c) + i - List.length (Card.Files c))
      with i by lia.
    apply (G _ 0 i image N).
Qed.

(** Every byte [url.QueryEscape] produces is a letter, a digit or one of
    [- _ . ~ % +]. *)
Lemma QueryEscape_safe : forall s, allChars safeChar (Go.QueryEscape s) = true.
Proof.
  induction s as [|c s IH]; [reflexivity|].
  destruct c as [[] [] [] [] [] [] [] []]; exact IH.
Qed.

Lemma allChars_In p : forall s c,
  allChars p s = true -> In c (list_ascii_of_string s) -> p c = true.
Proof.
  induction s as [|a s IH]; simpl; intros c H I; [contradiction|].
  apply andb_true_iff in H. destruct H as [Ha Hs].
  destruct I as [I|I]; [now subst | now apply IH].
Qed.

(** X5.  The name of every file [dumpfile] writes, below the attachments
    directory, is made of letters, digits and [- _ . ~ % +] only: it
    holds no slash, no backslash and no space, so an attachment whose
    original name contains path separators is still written inside the
    attachments directory. *)
Theorem written_name_has_no_separator name data (w w' : World) :
  dumpfile name data w = (w', None) ->
  exists fname,
    disk w'
    = (disk w ++ [(("attachments" ++ String PathSeparator "" ++ fname)%string,
                   data)])%list
    /\ allChars safeChar fname = true
    /\ ~ In "/"%char (list_ascii_of_string fname)
    /\ ~ In "\"%char (list_ascii_of_string fname)
    /\ ~ In " "%char (list_ascii_of_string fname).
Proof.
  intros H. apply dumpfile_disk in H. exists (Go.QueryEscape name).
  split; [exact H|].
  pose proof (QueryEscape_safe name) as S.
  split; [exact S|].
  repeat split; intros I; apply (allChars_In _ _ _ S) in I; discriminate I.
Qed.






End Attachments.

(** ** Errors *)

Section Errors.
Context {env : Env}.

Lemma dumpfile_error name data (w w' : World) e :
  dumpfile name data w = (w', Some e) ->
  exists oe msg, e = Wrap oe msg /\ fromPlatform oe msg.
Proof.
  unfold dumpfile, fromPlatform.
  destruct (MkdirAll (disk w) "attachments") as [oe|] eqn:M.
  - intros H. inversion H; subst. exists oe, "os.MkdirAll returned error".
    split; [reflexivity|]. left. split; [reflexivity|]. eauto.
  - destruct (WriteFile _ _ _) as [oe|] eqn:W; [|discriminate].
    intros H. inversion H; subst.
    exists oe, "ioutil.WriteFile returned error".
    split; [reflexivity|]. right. split; [reflexivity|]. eauto.
Qed.

Lemma dumpFiles_error title files : forall i (w w' : World) e,
  dumpFiles title i files w = (w', Some e) ->
  files <> []
  /\ exists oe msg,
       e = Wrap (Wrap oe msg) "dumpfile for files returned error"
       /\ fromPlatform oe msg.
Proof.
  induction files as [|file files IH]; simpl; intros i w w' e H;
    [discriminate|].
  split; [discriminate|].
  destruct (dumpfile _ _ w) as [w1 [e1|]] eqn:D.
  - inversion H; subst. apply dumpfile_error in D.
    destruct D as [oe [msg [E P]]]. subst. eauto.
  - apply IH in H. apply H.
Qed.

Lemma dumpImages_error title images : forall i (w w' : World) e,
  dumpImages title i images w = (w', Some e) ->
  images <> []
  /\ exists oe msg,
       e = Wrap (Wrap oe msg) "dumpfile for images returned error"
       /\ fromPlatform oe msg.
Proof.
  induction images as [|image images IH]; simpl; intros i w w' e H;
    [discriminate|].
  split; [discriminate|].
  destruct (dumpfile _ _ w) as [w1 [e1|]] eqn:D.
  - inversion H; subst. apply dumpfile_error in D.
    destruct D as [oe [msg [E P]]]. subst. eauto.
  - apply IH in H. apply H.
Qed.

Lemma extractAttachments_error c title (w w' : World) e :
  extractAttachments c title w = (w', Some e) ->
  (Card.Files c <> [] \/ Card.Images c <> [])
  /\ exists oe msg ctx,
       e = Wrap (Wrap oe msg) ctx
       /\ fromPlatform oe msg
       /\ (ctx = "dumpfile for files returned error"
           \/ ctx = "dumpfile for images returned error").
Proof.
  unfold extractAttachments.
  destruct (dumpFiles title 0 (Card.Files c) w) as [w1 [e1|]] eqn:D.
  - intros H. inversion H; subst. apply dumpFiles_error in D.
    destruct D as [NE [oe [msg [E P]]]]. split; [left; exact NE|].
    exists oe, msg, "dumpfile for files returned error". auto.
  - intros H. apply dumpImages_error in H.
    destruct H as [NE [oe [msg [E P]]]]. split; [right; exact NE|].
    exists oe, msg, "dumpfile for images returned error". auto.
Qed.

Lemma parseLoop_error db c pf df : forall rest i flag (w w' : World) e,
  parseLoop db c pf df i rest flag w = (w', inl e) ->
  exists e' title,
    e = Wrap (Wrap e' "extractAttachments returned error")
             "importSite returned error"
    /\ exists w0 w1, extractAttachments c title w0 = (w1, Some e').
Proof.
  induction rest as [|f rest IH]; intros i flag w w' e H.
  - discriminate.
  - rewrite parseLoop_step in H.
    destruct (tripletAt c i f) as [[[[title login] pass] url]|];
      [|eapply IH; exact H].
    unfold importSite in H.
    destruct (extractAttachments c title w) as [w1 [e1|]] eqn:A.
    + inversion H; subst. exists e1, title. split; [reflexivity|]. eauto.
    + eapply IH; exact H.
Qed.

(** X8.  Whenever [parse] returns an error, the card has an attachment
    and the error is what [os.MkdirAll] or [ioutil.WriteFile] returned,
    wrapped four times: by [dumpfile], by the file or image loop, by the
    record builder for [extractAttachments], and by [parse] for the
    record builder. *)
Theorem parse_error_is_a_wrapped_write_failure db c pf df (w w' : World) e :
  parse db c pf df w = (w', Some e) ->
  (Card.Files c <> [] \/ Card.Images c <> [])
  /\ exists oe msg loop builder,
       e = Wrap (Wrap (Wrap (Wrap oe msg) loop)
                      "extractAttachments returned error") builder
       /\ fromPlatform oe msg
       /\ (loop = "dumpfile for files returned error"
           \/ loop = "dumpfile for images returned error")
       /\ (builder = "importSite returned error"
           \/ builder = "importSecureNote returned error").
Proof.
  unfold parse.
  destruct (parseLoop db c pf df 0 (Card.Fields c) false w)
    as [w1 [e1|flag]] eqn:L.
  - intros H. inversion H; subst. apply parseLoop_error in L.
    destruct L as [e' [title [E [w0 [w2 A]]]]].
    apply extractAttachments_error in A.
    destruct A as [NE [oe [msg [ctx [E' [P C]]]]]]. split; [exact NE|].
    exists oe, msg, ctx, "importSite returned error". subst. auto.
  - destruct flag; [discriminate|].
    unfold importSecureNote.
    destruct (extractAttachments c (noteTitle c) w1) as [w2 [e2|]] eqn:A;
      [|discriminate].
    intros H. inversion H; subst. apply extractAttachments_error in A.
    destruct A as [NE [oe [msg [ctx [E' [P C]]]]]]. split; [exact NE|].
    exists oe, msg, ctx, "importSecureNote returned error". subst. auto.
Qed.

Lemma extractAttachments_none c title (w : World) :
  Card.Files c = [] -> Card.Images c = [] ->
  extractAttachments c title w = (w, None).
Proof.
  intros F I. unfold extractAttachments. rewrite F, I. reflexivity.
Qed.

Lemma world_eta (w : World) :
  mkWorld (importedSites w) (importedNotes w) (disk w) = w.
Proof. destruct w; reflexivity. Qed.

Lemma parseLoop_no_attachments db c pf df :
  Card.Files c = [] -> Card.Images c = [] ->
  forall rest i flag (w : World),
  exists w' flag',
    parseLoop db c pf df i rest flag w = (w', inr flag')
    /\ disk w' = disk w.
Proof.
  intros F I. induction rest as [|f rest IH]; intros i flag w.
  - simpl. eauto.
  - rewrite parseLoop_step.
    destruct (tripletAt c i f) as [[[[title login] pass] url]|]; [|apply IH].
    unfold importSite. rewrite (extractAttachments_none c title w F I).
    destruct (IH (S i) true
                 (mkWorld
                    (importedSites w
                     ++ [siteRecord db c pf df title login pass url])
                    (importedNotes w) (disk w))) as [w' [flag' [E D]]].
    exists w', flag'. split; [exact E | exact D].
Qed.

(** X7.  A card without attachments cannot make [parse] fail, whatever
    the platform does, and parsing it writes no file. *)
Theorem parse_without_attachments_cannot_fail db c pf df (w : World) :
  Card.Files c = [] ->
  Card.Images c = [] ->
  snd (parse db c pf df w) = None
  /\ disk (fst (parse db c pf df w)) = disk w.
Proof.
  intros F I. unfold parse.
  destruct (parseLoop_no_attachments db c pf df F I (Card.Fields c) 0 false w)
    as [w1 [flag [L D]]].
  rewrite L. destruct flag; [simpl; auto|].
  unfold importSecureNote.
  rewrite (extractAttachments_none c (noteTitle c) w1 F I). simpl. auto.
Qed.

End Errors.

(** ** What one card writes and emits *)

Section CardOutput.
Context {env : Env}.

Lemma importSite_disk db c pf df title login pass url (w w' : World) :
  importSite db c pf df title login pass url w = (w', None) ->
  disk w' = (disk w ++ attachmentEntries c title)%list.
Proof.
  unfold importSite.
  destruct (extractAttachments c title w) as [w1 [e|]] eqn:A; [discriminate|].
  apply extractAttachments_disk in A. intros H. inversion H; subst.
  exact A.
Qed.

Lemma parseLoop_disk db c pf df : forall rest i flag (w w' : World) flag',
  parseLoop db c pf df i rest flag w = (w', inr flag') ->
  disk w'
  = (disk w
     ++ concat (map (fun t => attachmentEntries c (tripletTitle t))
                    (tripletsFrom c i rest)))%list.
Proof.
  induction rest as [|f rest IH]; intros i flag w w' flag' H.
  - simpl in H. inversion H; subst. simpl. now rewrite app_nil_r.
  - rewrite parseLoop_step in H. simpl.
    destruct (tripletAt c i f) as [[[[title login] pass] url]|];
      [|eapply IH; exact H].
    destruct (importSite db c pf df title login pass url w)
      as [w1 [e|]] eqn:I; [discriminate|].
    apply importSite_disk in I. apply IH in H. rewrite H, I. simpl.
    now rewrite <- app_assoc.
Qed.

Lemma parse_disk db c pf df (w w' : World) :
  parse db c pf df w = (w', None) ->
  disk w'
  = (disk w
     ++ match triplets c with
        | [] => attachmentEntries c (noteTitle c)
        | ts => concat (map (fun t => attachmentEntries c (tripletTitle t))
                            ts)
        end)%list.
Proof.
  intros P. unfold parse in P. unfold triplets.
  destruct (parseLoop db c pf df 0 (Card.Fields c) false w)
    as [w1 [e|flag]] eqn:L; [discriminate|].
  pose proof L as S. apply parseLoop_spec in S.
  destruct S as [_ [done [todo [E [_ [T F]]]]]]. subst todo.
  rewrite app_nil_r in E. apply parseLoop_disk in L.
  rewrite E in *. clear E. simpl in F.
  destruct flag.
  - inversion P; subst. rewrite L.
    destruct done; [discriminate | reflexivity].
  - destruct done; [|discriminate].
    simpl in L. rewrite app_nil_r in L.
    unfold importSecureNote in P.
    destruct (extractAttachments c (noteTitle c) w1) as [w2 [e|]] eqn:A;
      [discriminate|].
    apply extractAttachments_disk in A. inversion P; subst. simpl.
    rewrite A, L. reflexivity.
Qed.

Lemma concat_length_const {A} (k : nat) : forall (ls : list (list A)),
  Forall (fun l => List.length l = k) ls ->
  List.length (concat ls) = List.length ls * k.
Proof.
  induction ls as [|l ls IH]; intros F; simpl; [reflexivity|].
  inversion F; subst. rewrite length_app, IH by assumption. lia.
Qed.

(** X9.  Attachments are dumped once per record: when [parse] returns
    without error, the card's file and image attachments have been
    written as many times as the card has yielded sites and notes, so a
    card with [k] sites leaves [k] dumps of each attachment. *)
Theorem attachments_dumped_once_per_record db c pf df (w w' : World) :
  parse db c pf df w = (w', None) ->
  exists (sites : list Site.site) (notes : list Note.note),
    importedSites w' = (importedSites w ++ sites)%list
    /\ importedNotes w' = (importedNotes w ++ notes)%list
    /\ List.length (disk w')
       = List.length (disk w)
         + (List.length sites + List.length notes)
           * (List.length (Card.Files c) + List.length (Card.Images c)).
Proof.
  intros P. pose proof (parse_disk _ _ _ _ _ _ P) as D.
  apply parse_spec in P. destruct P as [done [todo [E [S1 [T N]]]]].
  subst todo. rewrite app_nil_r in E. subst done.
  exists (map (siteOf db c pf df) (triplets c)).
  destruct (triplets c) as [|t ts].
  - exists [noteRecord db c pf df]. split; [exact S1|]. split; [exact N|].
    rewrite D, length_app, attachmentEntries_length. simpl. lia.
  - exists []. split; [exact S1|]. split; [exact N|].
    rewrite D, length_app.
    rewrite (concat_length_const
               (List.length (Card.Files c) + List.length (Card.Images c))).
    + rewrite !length_map. simpl. lia.
    + apply Forall_forall. intros l Hl. apply in_map_iff in Hl.
      destruct Hl as [t' [El _]]. subst l. apply attachmentEntries_length.
Qed.

Lemma siteTitle_titled c url :
  Card.Title c <> "" -> siteTitle c url = Card.Title c.
Proof.
  intros T. unfold siteTitle. apply String.eqb_neq in T. now rewrite T.
Qed.

Lemma tripletAt_title c i f title login pass url :
  tripletAt c i f = Some (title, login, pass, url) ->
  title = siteTitle c url.
Proof.
  unfold tripletAt.
  destruct (String.eqb (Field.FieldType f) "login"
            && negb (String.eqb (Field.Value f) "")); [|discriminate].
  destruct (String.eqb (scanFirst "password" (skipn i (Card.Fields c))) ""
            || String.eqb (scanFirst "website" (skipn i (Card.Fields c))) "");
    [discriminate|].
  destruct (String.eqb
              (siteTitle c (scanFirst "website" (skipn i (Card.Fields c))))
              ""); [discriminate|].
  intros H. inversion H; subst. reflexivity.
Qed.

(** X10.  A card with a title of its own gives that title to every
    record it yields, and every dump of its attachments goes to the same
    paths: with [k] records each attachment path is written [k] times,
    the later writes falling on the earlier ones. *)
Theorem titled_card_reuses_attachment_paths db c pf df (w w' : World) :
  Card.Title c <> "" ->
  parse db c pf df w = (w', None) ->
  exists (sites : list Site.site) (notes : list Note.note),
    importedSites w' = (importedSites w ++ sites)%list
    /\ importedNotes w' = (importedNotes w ++ notes)%list
    /\ Forall (fun s => Site.Name s = Card.Title c) sites
    /\ Forall (fun n => Note.Name n = Card.Title c) notes
    /\ disk w'
       = (disk w
          ++ concat (repeat (attachmentEntries c (Card.Title c))
                            (List.length sites + List.length notes)))%list.
Proof.
  intros T P. pose proof (parse_disk _ _ _ _ _ _ P) as D.
  apply parse_spec in P. destruct P as [done [todo [E [S1 [Z N]]]]].
  subst todo. rewrite app_nil_r in E. subst done.
  assert (NT : noteTitle c = Card.Title c).
  { unfold noteTitle. apply String.eqb_neq in T. now rewrite T. }
  assert (TT : forall t, In t (triplets c) -> tripletTitle t = Card.Title c).
  { intros [j [[[title login] pass] url]] I.
    apply tripletsFrom_found in I. destruct I as [f I].
    apply tripletAt_title in I. simpl. rewrite I.
    now apply siteTitle_titled. }
  exists (map (siteOf db c pf df) (triplets c)).
  destruct (triplets c) as [|t ts] eqn:ET.
  - exists [noteRecord db c pf df]. split; [exact S1|]. split; [exact N|].
    split; [constructor|]. split; [constructor; [exact NT | constructor]|].
    rewrite D, NT. simpl. now rewrite app_nil_r.
  - exists []. split; [exact S1|]. split; [exact N|].
    split.
    + apply Forall_forall. intros s Hs. apply in_map_iff in Hs.
      destruct Hs as [[j [[[title login] pass] url]] [Es I]]. subst s.
      apply (TT _ I).
    + split; [constructor|]. rewrite D. f_equal.
      rewrite length_map, Nat.add_0_r.
      clear - TT. revert TT. generalize (t :: ts). intros l TT.
      induction l as [|a l IH]; [reflexivity|].
      simpl. rewrite (TT a) by (left; reflexivity).
      rewrite IH; [reflexivity|]. intros t' I. apply TT. right. exact I.
Qed.

(** X11.  The favourite flag and the resolved folder of a card go
    unchanged into every record it yields: each site and each note has
    [Fav] equal to ["1"] for a starred card and empty otherwise, and
    [Grouping] equal to the card's folder; sites leave [type] and
    [hostname] empty, notes carry the URL ["http://sn"] and no username
    or password. *)
Theorem records_carry_star_and_folder db c pf df (w : World) :
  exists (sites : list Site.site) (notes : list Note.note),
    importedSites (fst (parse db c pf df w)) = (importedSites w ++ sites)%list
    /\ importedNotes (fst (parse db c pf df w))
       = (importedNotes w ++ notes)%list
    /\ Forall
         (fun s =>
            Site.Fav s = (if Card.Star c then "1" else "")
            /\ Site.Grouping s = primaryCardLabel db c pf df
            /\ Site.Type_ s = "" /\ Site.Hostname s = "")
         sites
    /\ Forall
         (fun n =>
            Note.Fav n = (if Card.Star c then "1" else "")
            /\ Note.Grouping n = primaryCardLabel db c pf df
            /\ Note.URL n = "http://sn"
            /\ Note.Username n = "" /\ Note.Password n = "")
         notes.
Proof.
  destruct (parse db c pf df w) as [w' r] eqn:P.
  apply parse_spec in P. destruct P as [done [todo [_ [S1 N]]]]. simpl.
  exists (map (siteOf db c pf df) done).
  assert (FS : Forall
                 (fun s =>
                    Site.Fav s = (if Card.Star c then "1" else "")
                    /\ Site.Grouping s = primaryCardLabel db c pf df
                    /\ Site.Type_ s = "" /\ Site.Hostname s = "")
                 (map (siteOf db c pf df) done)).
  { apply Forall_forall. intros s Hs. apply in_map_iff in Hs.
    destruct Hs as [[j [[[title login] pass] url]] [Es _]]. subst s.
    simpl. auto. }
  destruct r as [e|].
  - exists []. rewrite app_nil_r. repeat split; auto.
  - destruct N as [_ N]. destruct done.
    + exists [noteRecord db c pf df]. repeat split; auto.
      constructor; [simpl; auto | constructor].
    + exists []. repeat split; auto.
Qed.

End CardOutput.

(** ** The whole run *)

Section Run.
Context {env : Env}.

Lemma importCard_skipped db pf df c (w : World) :
  live c = false -> importCard db pf df c w = (w, None).
Proof.
  unfold live, importCard. destruct (Card.Deleted c); [reflexivity|].
  destruct (Card.Template c); [reflexivity | discriminate].
Qed.

Lemma importCard_live db pf df c (w : World) :
  live c = true -> importCard db pf df c w = parse db c pf df w.
Proof.
  unfold live, importCard. destruct (Card.Deleted c); [discriminate|].
  destruct (Card.Template c); [discriminate | reflexivity].
Qed.

(** X12.  The loop over the cards composes: running it over two lists
    one after the other, the second from the world the first has left,
    is running it over their concatenation; and once a card has failed,
    no later card is looked at: the result is the first error with the
    world as it was then. *)
Theorem importCards_runs_in_sequence db pf df cs1 cs2 (w : World) :
  importCards db pf df (cs1 ++ cs2) w
  = match importCards db pf df cs1 w with
    | (w1, Some e) => (w1, Some e)
    | (w1, None) => importCards db pf df cs2 w1
    end.
Proof.
  revert cs2 w.
  induction cs1 as [|c cs1 IH]; intros cs2 w; simpl; [reflexivity|].
  destruct (importCard db pf df c w) as [w1 [e|]]; [reflexivity | apply IH].
Qed.

(** X13.  Deleted cards and templates leave no trace: the run over all
    cards is the run over those that are neither, in the same order. *)
Theorem importCards_ignores_deleted_and_templates db pf df cards (w : World) :
  importCards db pf df cards w = importCards db pf df (filter live cards) w.
Proof.
  revert w. induction cards as [|c cards IH]; intros w; simpl;
    [reflexivity|].
  destruct (live c) eqn:L.
  - simpl. destruct (importCard db pf df c w) as [w1 [e|]];
      [reflexivity | apply IH].
  - rewrite (importCard_skipped db pf df c w L). apply IH.
Qed.

(** X14.  No card is lost and none is filed twice as a note.  After a
    run without error, what the accumulators have gained splits, in the
    order of the cards, into one segment for each card that is neither
    deleted nor a template: the sites and notes the call of [parse] for
    that card has appended.  Every such segment holds at least one
    record and at most one secure note, and deleted cards and templates
    have no segment.  So at least one record per such card has been
    gained, and at most one note per such card. *)
Theorem every_live_card_is_imported db pf df cards (w w' : World) :
  importCards db pf df cards w = (w', None) ->
  exists outs : list (list Site.site * list Note.note),
    importedSites w' = (importedSites w ++ concat (map fst outs))%list
    /\ importedNotes w' = (importedNotes w ++ concat (map snd outs))%list
    /\ Forall2
         (fun c out =>
            (exists w0 w1 : World,
                parse db c pf df w0 = (w1, None)
                /\ importedSites w1 = (importedSites w0 ++ fst out)%list
                /\ importedNotes w1 = (importedNotes w0 ++ snd out)%list)
            /\ 1 <= List.length (fst out) + List.length (snd out)
            /\ List.length (snd out) <= 1)
         (filter live cards) outs
    /\ List.length (filter live cards)
       <= List.length (concat (map fst outs))
          + List.length (concat (map snd outs))
    /\ List.length (concat (map snd outs))
       <= List.length (filter live cards).
Proof.
  revert w w'.
  induction cards as [|c cards IH]; intros w w' H; simpl in H.
  - inversion H; subst. exists []. simpl. rewrite !app_nil_r.
    split; [reflexivity|]. split; [reflexivity|].
    split; [constructor | split; lia].
  - destruct (importCard db pf df c w) as [w1 [e|]] eqn:C; [discriminate|].
    apply IH in H. destruct H as [outs [S1 [N1 [F [L1 L2]]]]].
    simpl. destruct (live c) eqn:L.
    + rewrite (importCard_live db pf df c w L) in C.
      pose proof C as P.
      apply parse_spec in C. destruct C as [done [todo [_ [S0 [_ N0]]]]].
      exists ((map (siteOf db c pf df) done,
               match done with
               | [] => [noteRecord db c pf df]
               | _ :: _ => []
               end) :: outs).
      simpl.
      split; [rewrite S1, S0; now rewrite <- app_assoc|].
      split; [rewrite N1, N0; now rewrite <- app_assoc|].
      split.
      * constructor; [|exact F]. simpl. split.
        -- exists w, w1. auto.
        -- destruct done; simpl; lia.
      * rewrite !length_app. destruct done; simpl; lia.
    + rewrite (importCard_skipped db pf df c w L) in C. inversion C; subst.
      exists outs. auto.
Qed.

Lemma filter_three_way : forall cards : list Card.t,
  List.length (filter live cards)
  + List.length (filter Card.Deleted cards)
  + List.length
      (filter (fun c => negb (Card.Deleted c) && Card.Template c) cards)
  = List.length cards.
Proof.
  induction cards as [|c cards IH]; [reflexivity|].
  simpl. unfold live at 1.
  destruct (Card.Deleted c), (Card.Template c); simpl; lia.
Qed.

Lemma mainCards_spec db pf df : forall cards n (w : World),
  match mainCards db pf df cards n w with
  | (w1, inl e) => importCards db pf df cards w = (w1, Some e)
  | (w1, inr n') =>
      importCards db pf df cards w = (w1, None)
      /\ imported n' = imported n + List.length (filter live cards)
      /\ deleted n' = deleted n + List.length (filter Card.Deleted cards)
      /\ skipped n'
         = skipped n
           + List.length
               (filter (fun c => negb (Card.Deleted c) && Card.Template c)
                       cards)
  end.
Proof.
  induction cards as [|c cards IH]; intros n w; simpl.
  - repeat split; lia.
  - unfold importCard.
    destruct (Card.Deleted c) eqn:D; [|destruct (Card.Template c) eqn:T].
    + assert (Lc : live c = false) by (unfold live; now rewrite D).
      rewrite Lc. simpl.
      specialize (IH (mkCounters (imported n) (S (deleted n)) (skipped n)) w).
      destruct (mainCards _ _ _ _ _ _) as [w1 [e|n']]; [exact IH|].
      simpl in IH. destruct IH as [I [A [B C]]].
      repeat split; [exact I | lia | simpl; lia | lia].
    + assert (Lc : live c = false) by (unfold live; now rewrite D, T).
      rewrite Lc. simpl.
      specialize (IH (mkCounters (imported n) (deleted n) (S (skipped n))) w).
      destruct (mainCards _ _ _ _ _ _) as [w1 [e|n']]; [exact IH|].
      simpl in IH. destruct IH as [I [A [B C]]].
      repeat split; [exact I | lia | lia | simpl; lia].
    + assert (Lc : live c = true) by (unfold live; now rewrite D, T).
      rewrite Lc. simpl.
      destruct (parse db c pf df w) as [w0 [e|]]; [reflexivity|].
      specialize (IH (mkCounters (S (imported n)) (deleted n) (skipped n))
                     w0).
      destruct (mainCards _ _ _ _ _ _) as [w1 [e|n']]; [exact IH|].
      simpl in IH. destruct IH as [I [A [B C]]].
      repeat split; [exact I | simpl; lia | lia | lia].
Qed.

(** X15.  The three counters [main] logs after a run without error
    account for every card exactly once: [imported] counts the cards
    that are neither deleted nor templates, [deleted] the deleted ones
    (templates or not), [skipped] the templates that are not deleted,
    and the three add up to the number of cards. *)
Theorem counters_account_for_every_card db pf df cards (w w' : World) n :
  mainCards db pf df cards (mkCounters 0 0 0) w = (w', inr n) ->
  importCards db pf df cards w = (w', None)
  /\ imported n = List.length (filter live cards)
  /\ deleted n = List.length (filter Card.Deleted cards)
  /\ skipped n
     = List.length
         (filter (fun c => negb (Card.Deleted c) && Card.Template c) cards)
  /\ imported n + deleted n + skipped n = List.length cards.
Proof.
  intros H. pose proof (mainCards_spec db pf df cards (mkCounters 0 0 0) w) as S.
  rewrite H in S. simpl in S. destruct S as [I [A [B C]]].
  pose proof (filter_three_way cards). repeat split; try assumption. lia.
Qed.







End Run.

(** ** The forward scan and the title, again *)

Section ScanAndTitle.

Lemma skipn_nth_cons {A} : forall (l : list A) i a,
  nth_error l i = Some a -> skipn i l = a :: skipn (S i) l.
Proof.
  induction l as [|x l IH]; intros i a H.
  - destruct i; discriminate.
  - destruct i as [|i]; simpl in *.
    + inversion H; reflexivity.
    + apply IH. exact H.
Qed.

Lemma scanFirst_skip_one ty (fields : list Field.t) i :
  (forall f, nth_error fields i = Some f -> ~ typed ty f) ->
  scanFirst ty (skipn i fields) = scanFirst ty (skipn (S i) fields).
Proof.
  intros H. destruct (nth_error fields i) as [f|] eqn:N.
  - rewrite (skipn_nth_cons _ _ _ N). simpl.
    assert (T : ~ typed ty f) by (apply H; reflexivity).
    apply typed_false in T. now rewrite T.
  - apply nth_error_None in N.
    rewrite !skipn_all2 by lia. reflexivity.
Qed.

(** X17.  Logins that stand before the same password share it: when no
    field of the wanted type with a non-empty value lies at an index in
    [[i, j)], the scan from [i] and the scan from [j] return the same
    value (the same holds for the website). *)
Theorem forward_scans_meet ty (fields : list Field.t) i j :
  i <= j ->
  (forall k f, i <= k < j -> nth_error fields k = Some f -> ~ typed ty f) ->
  scanFirst ty (skipn i fields) = scanFirst ty (skipn j fields).
Proof.
  induction 1 as [|m Hm IH]; intros H; [reflexivity|].
  rewrite IH.
  - apply scanFirst_skip_one. intros f N. apply (H m f); [lia | exact N].
  - intros k f Hk N. apply (H k f); [lia | exact N].
Qed.

Lemma replaceFrom_absent old new : forall s,
  occurs old s = false -> Go.replaceFrom old new None 0 s = s.
Proof.
  induction s as [|c s IH]; intros H; [reflexivity|].
  simpl in H. apply orb_false_iff in H. destruct H as [P O].
  simpl. unfold Go.HasPrefix. rewrite P, (IH O). reflexivity.
Qed.

Lemma strip_http_absent s :
  occurs "http://" s = false -> Go.Replace s "http://" "" (-1) = s.
Proof. intros H. unfold Go.Replace. simpl. now apply replaceFrom_absent. Qed.

Lemma strip_https_absent s :
  occurs "https://" s = false -> Go.Replace s "https://" "" (-1) = s.
Proof. intros H. unfold Go.Replace. simpl. now apply replaceFrom_absent. Qed.

Lemma strip_http_prefix host :
  occurs "http://" host = false ->
  Go.Replace ("http://" ++ host) "http://" "" (-1) = host.
Proof.
  intros H. unfold Go.Replace.
  change (Go.replaceFrom "http://" "" None 0 ("http://" ++ host) = host).
  destruct host as [|a host]; [reflexivity|].
  change (Go.replaceFrom "http://" "" None 0 (String a host) = String a host).
  now apply replaceFrom_absent.
Qed.

Lemma strip_https_prefix host :
  occurs "https://" host = false ->
  Go.Replace ("https://" ++ host) "https://" "" (-1) = host.
Proof.
  intros H. unfold Go.Replace.
  change (Go.replaceFrom "https://" "" None 0 ("https://" ++ host) = host).
  destruct host as [|a host]; [reflexivity|].
  change (Go.replaceFrom "https://" "" None 0 (String a host) = String a host).
  now apply replaceFrom_absent.
Qed.

Lemma occurs_http_in_https host :
  occurs "http://" host = false ->
  occurs "http://" ("https://" ++ host) = false.
Proof. intros H. exact H. Qed.

(** X18.  The usual website gives its host part as the title of an
    untitled card: for a website that is ["https://"] or ["http://"]
    followed by a string in which neither scheme occurs, the title
    fallback returns exactly that string. *)
Theorem plain_website_title_is_its_host c host :
  Card.Title c = "" ->
  occurs "http://" host = false ->
  occurs "https://" host = false ->
  siteTitle c ("https://" ++ host) = host
  /\ siteTitle c ("http://" ++ host) = host.
Proof.
  intros T H1 H2. unfold siteTitle. rewrite T.
  change (String.eqb "" "") with true. cbv iota. split.
  - rewrite (strip_http_absent _ (occurs_http_in_https host H1)).
    now apply strip_https_prefix.
  - rewrite (strip_http_prefix host H1). now apply strip_https_absent.
Qed.

End ScanAndTitle.

(** ** The further properties at concrete inputs *)

(** X2 at a card that refers to label 9 of a database without labels. *)
Lemma dangling_labels_give_default_folder_witness :
  (forall id label,
      In id (Card.LabelIDs cardTwo) -> In label (Database.Labels noLabels) ->
      Label.ID label <> id)
  /\ cardLabels noLabels cardTwo = []
  /\ @primaryCardLabel unix noLabels cardTwo ["Google"] "Imported"
     = "Imported".
Proof.
  assert (H : forall id label,
             In id (Card.LabelIDs cardTwo) ->
             In label (Database.Labels noLabels) -> Label.ID label <> id)
    by (intros id label _ []).
  split; [exact H|].
  apply (@dangling_labels_give_default_folder
           unix noLabels cardTwo ["Google"] "Imported" H).
Defined.

(** X3 at two cards that carry the same two labels in different orders,
    one of them twice. *)
Lemma priority_match_ignores_label_order_witness :
  (forall l,
      In l (cardLabels bankLabels
              (Card.mk "1" "" false false false [] "" ["7"; "9"] [] []))
      <-> In l (cardLabels bankLabels
                  (Card.mk "2" "" false false false [] "" ["9"; "7"; "9"]
                           [] [])))
  /\ (exists f l,
         In f ["work"; "google"]
         /\ In l (cardLabels bankLabels
                    (Card.mk "1" "" false false false [] "" ["7"; "9"] [] []))
         /\ Go.EqualFold (@foldUnicode unix) f l = true)
  /\ @primaryCardLabel unix bankLabels
       (Card.mk "1" "" false false false [] "" ["7"; "9"] [] [])
       ["work"; "google"] "Imported"
     = @primaryCardLabel unix bankLabels
         (Card.mk "2" "" false false false [] "" ["9"; "7"; "9"] [] [])
         ["work"; "google"] "Other".
Proof.
  assert (H1 : forall l,
             In l (cardLabels bankLabels
                     (Card.mk "1" "" false false false [] "" ["7"; "9"]
                              [] []))
             <-> In l (cardLabels bankLabels
                         (Card.mk "2" "" false false false [] ""
                                  ["9"; "7"; "9"] [] [])))
    by (intros l; simpl; tauto).
  assert (H2 : exists f l,
             In f ["work"; "google"]
             /\ In l (cardLabels bankLabels
                        (Card.mk "1" "" false false false [] "" ["7"; "9"]
                                 [] []))
             /\ Go.EqualFold (@foldUnicode unix) f l = true).
  { exists "google", "Google". split; [simpl; auto|].
    split; [simpl; auto | reflexivity]. }
  split; [exact H1|]. split; [exact H2|].
  apply (@priority_match_ignores_label_order unix _ _ _ _ _ _ _ H1 H2).
Defined.

(** X4 at the card with one file and one image. *)
Lemma attachments_written_in_order_witness :
  @extractAttachments unix cardScan "My Bank" emptyWorld
  = (fst (@extractAttachments unix cardScan "My Bank" emptyWorld), None)
  /\ disk (fst (@extractAttachments unix cardScan "My Bank" emptyWorld))
     = (disk emptyWorld ++ @attachmentEntries unix cardScan "My Bank")%list.
Proof.
  assert (H : @extractAttachments unix cardScan "My Bank" emptyWorld
              = (fst (@extractAttachments unix cardScan "My Bank" emptyWorld),
                 None))
    by (vm_compute; reflexivity).
  split; [exact H|].
  exact (proj1 (@attachments_written_in_order
                  unix cardScan "My Bank" emptyWorld _ H)).
Defined.

(** X5 at a name that tries to climb out of the directory. *)
Lemma written_name_has_no_separator_witness :
  @dumpfile unix "x_0_../../etc/passwd" [] emptyWorld
  = (fst (@dumpfile unix "x_0_../../etc/passwd" [] emptyWorld), None)
  /\ exists fname,
       disk (fst (@dumpfile unix "x_0_../../etc/passwd" [] emptyWorld))
       = (disk emptyWorld
          ++ [(("attachments" ++ String (@PathSeparator unix) "" ++ fname)
                 %string, [])])%list
       /\ allChars safeChar fname = true
       /\ ~ In "/"%char (list_ascii_of_string fname)
       /\ ~ In "\"%char (list_ascii_of_string fname)
       /\ ~ In " "%char (list_ascii_of_string fname).
Proof.
  split; [vm_compute; reflexivity|].
  apply (@written_name_has_no_separator
           unix "x_0_../../etc/passwd" [] emptyWorld).
  vm_compute. reflexivity.
Defined.


(** X7 at a card without attachments, on a platform where no file can
    be written. *)
Lemma parse_without_attachments_cannot_fail_witness :
  Card.Files cardTwo = []
  /\ Card.Images cardTwo = []
  /\ snd (@parse readOnly bankLabels cardTwo [] "Imported" emptyWorld) = None
  /\ disk (fst (@parse readOnly bankLabels cardTwo [] "Imported" emptyWorld))
     = disk emptyWorld.
Proof.
  split; [reflexivity|]. split; [reflexivity|].
  apply (@parse_without_attachments_cannot_fail
           readOnly bankLabels cardTwo [] "Imported" emptyWorld);
    reflexivity.
Defined.

(** X8 at the card with attachments, on the same platform. *)
Lemma parse_error_is_a_wrapped_write_failure_witness :
  @parse readOnly noLabels cardScan [] "Imported" emptyWorld
  = (fst (@parse readOnly noLabels cardScan [] "Imported" emptyWorld),
     Some (Wrap (Wrap (Wrap (Wrap (OSError "read-only file system")
                                  "ioutil.WriteFile returned error")
                            "dumpfile for files returned error")
                      "extractAttachments returned error")
                "importSecureNote returned error"))
  /\ (Card.Files cardScan <> [] \/ Card.Images cardScan <> [])
  /\ exists oe msg loop builder,
       Wrap (Wrap (Wrap (Wrap (OSError "read-only file system")
                              "ioutil.WriteFile returned error")
                        "dumpfile for files returned error")
                  "extractAttachments returned error")
            "importSecureNote returned error"
       = Wrap (Wrap (Wrap (Wrap oe msg) loop)
                    "extractAttachments returned error") builder
       /\ @fromPlatform readOnly oe msg
       /\ (loop = "dumpfile for files returned error"
           \/ loop = "dumpfile for images returned error")
       /\ (builder = "importSite returned error"
           \/ builder = "importSecureNote returned error").
Proof.
  assert (H : @parse readOnly noLabels cardScan [] "Imported" emptyWorld
              = (fst (@parse readOnly noLabels cardScan [] "Imported"
                             emptyWorld),
                 Some (Wrap (Wrap (Wrap (Wrap (OSError "read-only file system")
                                              "ioutil.WriteFile returned error")
                                        "dumpfile for files returned error")
                                  "extractAttachments returned error")
                            "importSecureNote returned error")))
    by (vm_compute; reflexivity).
  split; [exact H|].
  exact (@parse_error_is_a_wrapped_write_failure
           readOnly noLabels cardScan [] "Imported" emptyWorld _ _ H).
Defined.

(** X9 and X10 at a titled card with two logins before one password and
    one attached file. *)
Lemma attachments_dumped_once_per_record_witness :
  @parse unix bankLabels cardShared [] "Imported" emptyWorld
  = (fst (@parse unix bankLabels cardShared [] "Imported" emptyWorld), None)
  /\ exists (sites : list Site.site) (notes : list Note.note),
       importedSites
         (fst (@parse unix bankLabels cardShared [] "Imported" emptyWorld))
       = (importedSites emptyWorld ++ sites)%list
       /\ importedNotes
            (fst (@parse unix bankLabels cardShared [] "Imported" emptyWorld))
          = (importedNotes emptyWorld ++ notes)%list
       /\ List.length
            (disk (fst (@parse unix bankLabels cardShared [] "Imported"
                               emptyWorld)))
          = List.length (disk emptyWorld)
            + (List.length sites + List.length notes)
              * (List.length (Card.Files cardShared)
                 + List.length (Card.Images cardShared)).
Proof.
  split; [vm_compute; reflexivity|].
  apply (@attachments_dumped_once_per_record
           unix bankLabels cardShared [] "Imported" emptyWorld).
  vm_compute. reflexivity.
Defined.

Lemma titled_card_reuses_attachment_paths_witness :
  Card.Title cardShared <> ""
  /\ @parse unix bankLabels cardShared [] "Imported" emptyWorld
     = (fst (@parse unix bankLabels cardShared [] "Imported" emptyWorld), None)
  /\ exists (sites : list Site.site) (notes : list Note.note),
       importedSites
         (fst (@parse unix bankLabels cardShared [] "Imported" emptyWorld))
       = (importedSites emptyWorld ++ sites)%list
       /\ importedNotes
            (fst (@parse unix bankLabels cardShared [] "Imported" emptyWorld))
          = (importedNotes emptyWorld ++ notes)%list
       /\ Forall (fun s => Site.Name s = Card.Title cardShared) sites
       /\ Forall (fun n => Note.Name n = Card.Title cardShared) notes
       /\ disk (fst (@parse unix bankLabels cardShared [] "Imported"
                            emptyWorld))
          = (disk emptyWorld
             ++ concat
                  (repeat (@attachmentEntries unix cardShared
                             (Card.Title cardShared))
                          (List.length sites + List.length notes)))%list.
Proof.
  assert (T : Card.Title cardShared <> "") by discriminate.
  split; [exact T|]. split; [vm_compute; reflexivity|].
  apply (@titled_card_reuses_attachment_paths
           unix bankLabels cardShared [] "Imported" emptyWorld _ T).
  vm_compute. reflexivity.
Defined.

(** X14 and X15 at a run over a deleted card, a template and two cards
    to import. *)
Lemma every_live_card_is_imported_witness :
  @importCards unix bankLabels [] "Imported"
     [cardGone; cardTemplate; cardShared; cardVisa] emptyWorld
  = (fst (@importCards unix bankLabels [] "Imported"
            [cardGone; cardTemplate; cardShared; cardVisa] emptyWorld), None)
  /\ exists outs : list (list Site.site * list Note.note),
       importedSites
         (fst (@importCards unix bankLabels [] "Imported"
                 [cardGone; cardTemplate; cardShared; cardVisa] emptyWorld))
       = (importedSites emptyWorld ++ concat (map fst outs))%list
       /\ importedNotes
            (fst (@importCards unix bankLabels [] "Imported"
                    [cardGone; cardTemplate; cardShared; cardVisa]
                    emptyWorld))
          = (importedNotes emptyWorld ++ concat (map snd outs))%list
       /\ Forall2
            (fun c out =>
               (exists w0 w1 : World,
                   @parse unix bankLabels c [] "Imported" w0 = (w1, None)
                   /\ importedSites w1 = (importedSites w0 ++ fst out)%list
                   /\ importedNotes w1 = (importedNotes w0 ++ snd out)%list)
               /\ 1 <= List.length (fst out) + List.length (snd out)
               /\ List.length (snd out) <= 1)
            (filter live [cardGone; cardTemplate; cardShared; cardVisa])
            outs
       /\ List.length
            (filter live [cardGone; cardTemplate; cardShared; cardVisa])
          <= List.length (concat (map fst outs))
             + List.length (concat (map snd outs))
       /\ List.length (concat (map snd outs))
          <= List.length
               (filter live [cardGone; cardTemplate; cardShared; cardVisa]).
Proof.
  split; [vm_compute; reflexivity|].
  apply (@every_live_card_is_imported
           unix bankLabels [] "Imported"
           [cardGone; cardTemplate; cardShared; cardVisa] emptyWorld).
  vm_compute. reflexivity.
Defined.

Lemma counters_account_for_every_card_witness :
  @mainCards unix bankLabels [] "Imported"
     [cardGone; cardTemplate; cardShared; cardVisa] (mkCounters 0 0 0)
     emptyWorld
  = (fst (@importCards unix bankLabels [] "Imported"
            [cardGone; cardTemplate; cardShared; cardVisa] emptyWorld),
     inr (mkCounters 2 1 1))
  /\ imported (mkCounters 2 1 1) + deleted (mkCounters 2 1 1)
     + skipped (mkCounters 2 1 1)
     = List.length [cardGone; cardTemplate; cardShared; cardVisa].
Proof.
  assert (H : @mainCards unix bankLabels [] "Imported"
                [cardGone; cardTemplate; cardShared; cardVisa]
                (mkCounters 0 0 0) emptyWorld
              = (fst (@importCards unix bankLabels [] "Imported"
                        [cardGone; cardTemplate; cardShared; cardVisa]
                        emptyWorld),
                 inr (mkCounters 2 1 1)))
    by (vm_compute; reflexivity).
  split; [exact H|].
  exact (proj2 (proj2 (proj2 (proj2
           (@counters_account_for_every_card
              unix bankLabels [] "Imported"
              [cardGone; cardTemplate; cardShared; cardVisa] emptyWorld
              _ _ H))))).
Defined.

(** X17 at the two logins of that card, which stand before its only
    password. *)
Lemma forward_scans_meet_witness :
  0 <= 1
  /\ (forall k f,
         0 <= k < 1 -> nth_error (Card.Fields cardShared) k = Some f ->
         ~ typed "password" f)
  /\ scanFirst "password" (skipn 0 (Card.Fields cardShared))
     = scanFirst "password" (skipn 1 (Card.Fields cardShared)).
Proof.
  assert (H : forall k f,
             0 <= k < 1 -> nth_error (Card.Fields cardShared) k = Some f ->
             ~ typed "password" f).
  { intros k f Hk N [Ty _]. assert (k = 0) by lia. subst k.
    simpl in N. inversion N; subst f. discriminate Ty. }
  split; [lia|]. split; [exact H|].
  apply (forward_scans_meet "password" (Card.Fields cardShared) 0 1);
    [lia | exact H].
Defined.

(** X18 at the website of the untitled card. *)
Lemma plain_website_title_is_its_host_witness :
  Card.Title cardBob = ""
  /\ occurs "http://" "example.com" = false
  /\ occurs "https://" "example.com" = false
  /\ siteTitle cardBob ("https://" ++ "example.com") = "example.com"
  /\ siteTitle cardBob ("http://" ++ "example.com") = "example.com".
Proof.
  split; [reflexivity|]. split; [reflexivity|]. split; [reflexivity|].
  apply (plain_website_title_is_its_host cardBob "example.com");
    reflexivity.
Defined.

(** ** The priority flag *)

Section PriorityFlag.

Lemma SplitByte_nonempty sep : forall s, SplitByte sep s <> [].
Proof.
  induction s as [|c s IH]; simpl; [discriminate|].
  destruct (Ascii.eqb c sep); [discriminate|].
  destruct (SplitByte sep s); discriminate.
Qed.

Lemma SplitByte_join sep : forall s,
  String.concat (String sep "") (SplitByte sep s) = s.
Proof.
  induction s as [|c s IH]; [reflexivity|].
  simpl. pose proof (SplitByte_nonempty sep s) as NE.
  destruct (Ascii.eqb_spec c sep) as [E|N].
  - subst c. destruct (SplitByte sep s) as [|p ps]; [now elim NE|].
    simpl in *. now rewrite IH.
  - destruct (SplitByte sep s) as [|p ps]; [now elim NE|].
    destruct ps as [|q ps]; simpl in *; now rewrite IH.
Qed.

Lemma SplitByte_no_sep sep : forall s,
  Forall (fun piece => ~ In sep (list_ascii_of_string piece))
         (SplitByte sep s).
Proof.
  induction s as [|c s IH]; simpl.
  - constructor; [intros [] | constructor].
  - destruct (Ascii.eqb_spec c sep) as [E|N].
    + constructor; [intros [] | exact IH].
    + destruct (SplitByte sep s) as [|p ps]; simpl.
      * constructor; [|constructor]. simpl. intros [H|[]]. now apply N.
      * inversion IH; subst. constructor; [|assumption].
        simpl. intros [H|H]; [now apply N | contradiction].
Qed.

(** X19.  The priority list is the flag [-p] cut at its commas and
    nothing more: joining the entries with commas gives the flag back
    (so no entry is trimmed, and empty entries between two commas are
    kept), no entry holds a comma, and the list is empty exactly when
    the flag is. *)
Theorem priority_flag_is_cut_at_commas (raw : string) :
  Go.Join (priorityFoldersOf raw) "," = raw
  /\ Forall (fun entry => ~ In ","%char (list_ascii_of_string entry))
            (priorityFoldersOf raw)
  /\ (priorityFoldersOf raw = [] <-> raw = "").
Proof.
  unfold priorityFoldersOf, Go.Join.
  destruct (String.eqb_spec raw "") as [E|N]; simpl.
  - subst raw. split; [reflexivity|]. split; [constructor | tauto].
  - split; [apply SplitByte_join|]. split; [apply SplitByte_no_sep|].
    split; [intros H; now apply SplitByte_nonempty in H | contradiction].
Qed.

End PriorityFlag.

(** ** The CSV files and the whole program *)

Section Csv.
Context {env : Env} {shell : Shell} {commandLine : CommandLine}.

Lemma writeEntries_spec {A : Type} {R : Reflect A} file :
  forall (records : list A) written t r,
  writeEntries file records written = (t, r) ->
  (exists k, t = (written ++ firstn k (map csvSlice records))%list)
  /\ (r = None -> t = (written ++ map csvSlice records)%list).
Proof.
  induction records as [|s records IH]; simpl; intros written t r H.
  - inversion H; subst. split; [exists 0|]; now rewrite app_nil_r.
  - destruct (WriterWrite file written (csvSlice s)) as [err|].
    + inversion H; subst. split; [|discriminate].
      exists 0. simpl. now rewrite app_nil_r.
    + apply IH in H. destruct H as [[k K] F]. split.
      * exists (S k). rewrite K. simpl. now rewrite <- app_assoc.
      * intros E. rewrite (F E). now rewrite <- app_assoc.
Qed.

Lemma writeCSV_spec {A : Type} {R : Reflect A} file (records : list A) t r :
  writeCSV file records = (t, r) ->
  (t = None \/ exists k, t = Some (firstn k (tableOf records)))
  /\ (r = None -> t = Some (tableOf records)).
Proof.
  unfold writeCSV, tableOf.
  destruct (Create file) as [err|];
    [intros H; inversion H; subst; split; [now left | discriminate]|].
  destruct records as [|first records].
  - intros H. inversion H; subst. split; [right; now exists 0 | reflexivity].
  - destruct (WriterWrite file [] (csvHeaders first)) as [err|].
    + intros H. inversion H; subst. split; [right; now exists 0 | discriminate].
    + destruct (writeEntries file (first :: records) [csvHeaders first])
        as [written r'] eqn:W.
      intros H. inversion H; subst. apply writeEntries_spec in W.
      destruct W as [[k K] F]. split.
      * right. exists (S k). rewrite K. reflexivity.
      * intros E. rewrite (F E). reflexivity.
Qed.

Lemma tableOf_width {A : Type} {R : Reflect A} (records : list A) :
  Forall (fun row => List.length row = List.length (@structFields A R))
         (tableOf records).
Proof.
  unfold tableOf. destruct records as [|first records]; [constructor|].
  constructor.
  - unfold csvHeaders. apply length_map.
  - apply Forall_forall. intros row H. apply in_map_iff in H.
    destruct H as [s [E _]]. subst row. unfold csvSlice. apply length_map.
Qed.

(** X20.  What the two CSV writers hand to the writer.  However a
    writer ends, the records accepted so far are an initial part of the
    intended table: the header (the nine, respectively seven, column
    names of the target format) followed by one row per record in the
    order of the accumulator, every row as wide as the header; when the
    writer returns no error the table is complete, and for an empty
    accumulator it is empty: the file is created without a header. *)
Theorem csv_writers_hand_over_the_table sites notes ts rs tn rn :
  writeSitesCSV sites = (ts, rs) ->
  writeSecureNotesCSV notes = (tn, rn) ->
  (ts = None \/ exists k, ts = Some (firstn k (tableOf sites)))
  /\ (tn = None \/ exists k, tn = Some (firstn k (tableOf notes)))
  /\ (rs = None -> ts = Some (tableOf sites))
  /\ (rn = None -> tn = Some (tableOf notes))
  /\ Forall (fun row => List.length row = 9) (tableOf sites)
  /\ Forall (fun row => List.length row = 7) (tableOf notes)
  /\ (forall s rest,
         sites = s :: rest ->
         tableOf sites
         = [ "url"; "type"; "username"; "password"; "hostname"; "extra";
             "name"; "grouping"; "fav" ]
             :: map csvSlice sites)
  /\ (forall n rest,
         notes = n :: rest ->
         tableOf notes
         = [ "url"; "username"; "password"; "extra"; "name"; "grouping";
             "fav" ]
             :: map csvSlice notes)
  /\ (tableOf (@nil Site.site) = [] /\ tableOf (@nil Note.note) = []).
Proof.
  unfold writeSitesCSV, writeSecureNotesCSV. intros Hs Hn.
  apply writeCSV_spec in Hs. apply writeCSV_spec in Hn.
  destruct Hs as [S1 S2]. destruct Hn as [N1 N2].
  split; [exact S1|]. split; [exact N1|]. split; [exact S2|].
  split; [exact N2|].
  split; [exact (tableOf_width sites)|].
  split; [exact (tableOf_width notes)|].
  split; [intros s rest E; subst; reflexivity|].
  split; [intros n rest E; subst; reflexivity|].
  split; reflexivity.
Qed.

Lemma main_world (args : list string) (flags : Flags) :
  flagParse args = inl flags ->
  dbFile flags <> "" ->
  forall db, ParseFile (dbFile flags) = inl db ->
  world (main args)
  = fst (importCards db (priorityFoldersOf (priorityFoldersRaw flags))
                     (defaultFolder flags) (Database.Cards db)
                     (mkWorld [] [] [])).
Proof.
  intros F NE db P. unfold main. apply String.eqb_neq in NE.
  rewrite F, NE, P.
  pose proof (mainCards_spec db (priorityFoldersOf (priorityFoldersRaw flags))
                (defaultFolder flags) (Database.Cards db) (mkCounters 0 0 0)
                (mkWorld [] [] [])) as M.
  destruct (mainCards _ _ _ _ _ _) as [w [e|n]].
  - rewrite M. reflexivity.
  - destruct M as [M _]. rewrite M.
    destruct (writeSitesCSV (importedSites w)) as [ts [e|]]; [reflexivity|].
    destruct (writeSecureNotesCSV (importedNotes w)) as [tn [e|]];
      reflexivity.
Qed.


End Csv.

(** ** From the cards to the rows *)

Section Rows.
Context {env : Env} {shell : Shell} {commandLine : CommandLine}.

Lemma parse_invariant db pf df (P : Site.site -> Prop) (Q : Note.note -> Prop)
      c (w : World) :
  (forall t, In t (triplets c) -> P (siteOf db c pf df t)) ->
  Q (noteRecord db c pf df) ->
  Forall P (importedSites w) -> Forall Q (importedNotes w) ->
  Forall P (importedSites (fst (parse db c pf df w)))
  /\ Forall Q (importedNotes (fst (parse db c pf df w))).
Proof.
  intros HP HQ FP FQ.
  destruct (parse db c pf df w) as [w' r] eqn:E.
  apply parse_spec in E. destruct E as [done [todo [T [S1 N]]]]. simpl.
  split.
  - rewrite S1. apply Forall_app. split; [exact FP|].
    apply Forall_forall. intros s Hs. apply in_map_iff in Hs.
    destruct Hs as [t [Es It]]. subst s. apply HP. rewrite T.
    apply in_or_app. now left.
  - destruct r as [e|]; [now rewrite N|].
    destruct N as [_ N]. rewrite N. apply Forall_app. split; [exact FQ|].
    destruct done; [constructor; [exact HQ | constructor] | constructor].
Qed.

Lemma importCards_invariant db pf df
      (P : Site.site -> Prop) (Q : Note.note -> Prop) :
  (forall c t, In t (triplets c) -> P (siteOf db c pf df t)) ->
  (forall c, Q (noteRecord db c pf df)) ->
  forall cards (w : World),
  Forall P (importedSites w) -> Forall Q (importedNotes w) ->
  Forall P (importedSites (fst (importCards db pf df cards w)))
  /\ Forall Q (importedNotes (fst (importCards db pf df cards w))).
Proof.
  intros HP HQ. induction cards as [|c cards IH]; intros w FP FQ; simpl;
    [auto|].
  assert (C : Forall P (importedSites (fst (importCard db pf df c w)))
              /\ Forall Q (importedNotes (fst (importCard db pf df c w)))).
  { unfold importCard. destruct (Card.Deleted c); [auto|].
    destruct (Card.Template c); [auto|].
    apply parse_invariant; auto. }
  destruct (importCard db pf df c w) as [w1 [e|]]; simpl in C;
    [exact C | apply IH; apply C].
Qed.

Lemma Forall_tl_firstn {A} (P : A -> Prop) (h : A) (rows : list A) k :
  Forall P rows -> Forall P (tl (firstn k (h :: rows))).
Proof.
  intros F. destruct k as [|k]; simpl; [constructor|].
  apply Forall_forall. intros x Hx.
  apply (proj1 (Forall_forall P rows) F).
  rewrite <- (firstn_skipn k rows). apply in_or_app. now left.
Qed.

(** X22.  The rows of the two CSV files keep the target format's rules,
    whatever the arguments, the database and the platform, and also when the
    run ends in an error after the file was created.  Every row after
    the header of the sites file has a non-empty url, username, password
    and name (columns 0, 2, 3 and 6) and an empty type and hostname
    (columns 1 and 4); every row after the header of the notes file has
    the url ["http://sn"] and an empty username and password (columns 0,
    1 and 2). *)
Theorem csv_rows_keep_the_format (args : list string) :
  (forall t,
      sitesCSV (main args) = Some t ->
      Forall
        (fun row =>
           nth 0 row "" <> "" /\ nth 2 row "" <> "" /\ nth 3 row "" <> ""
           /\ nth 6 row "" <> ""
           /\ nth_error row 1 = Some "" /\ nth_error row 4 = Some "")
        (tl t))
  /\ (forall t,
         notesCSV (main args) = Some t ->
         Forall
           (fun row =>
              nth_error row 0 = Some "http://sn"
              /\ nth_error row 1 = Some "" /\ nth_error row 2 = Some "")
           (tl t)).
Proof.
  set (P := fun s : Site.site =>
              completeSite s /\ Site.Type_ s = "" /\ Site.Hostname s = "").
  set (Q := fun n : Note.note =>
              Note.URL n = "http://sn" /\ Note.Username n = ""
              /\ Note.Password n = "").
  assert (Rs : forall (sites : list Site.site) k,
             Forall P sites ->
             Forall
               (fun row =>
                  nth 0 row "" <> "" /\ nth 2 row "" <> ""
                  /\ nth 3 row "" <> "" /\ nth 6 row "" <> ""
                  /\ nth_error row 1 = Some "" /\ nth_error row 4 = Some "")
               (tl (firstn k (tableOf sites)))).
  { intros sites k F. unfold tableOf.
    destruct sites as [|s0 sites]; [destruct k; constructor|].
    apply Forall_tl_firstn. apply Forall_forall. intros row H.
    apply in_map_iff in H. destruct H as [s [E I]]. subst row.
    apply (proj1 (Forall_forall P _) F) in I.
    destruct I as [[U [L [W N]]] [T H]]. simpl.
    rewrite T, H. auto 8. }
  assert (Rn : forall (notes : list Note.note) k,
             Forall Q notes ->
             Forall
               (fun row =>
                  nth_error row 0 = Some "http://sn"
                  /\ nth_error row 1 = Some "" /\ nth_error row 2 = Some "")
               (tl (firstn k (tableOf notes)))).
  { intros notes k F. unfold tableOf.
    destruct notes as [|n0 notes]; [destruct k; constructor|].
    apply Forall_tl_firstn. apply Forall_forall. intros row H.
    apply in_map_iff in H. destruct H as [n [E I]]. subst row.
    apply (proj1 (Forall_forall Q _) F) in I.
    destruct I as [U [L W]]. simpl. rewrite U, L, W. auto. }
  unfold main.
  destruct (flagParse args) as [flags|status];
    [|simpl; split; intros t H; discriminate].
  destruct (String.eqb (dbFile flags) "");
    [simpl; split; intros t H; discriminate|].
  destruct (ParseFile (dbFile flags)) as [db|err];
    [|simpl; split; intros t H; discriminate].
  pose proof (mainCards_spec db (priorityFoldersOf (priorityFoldersRaw flags))
                (defaultFolder flags) (Database.Cards db) (mkCounters 0 0 0)
                (mkWorld [] [] [])) as M.
  destruct (mainCards _ _ _ _ _ _) as [w [e|n]];
    [simpl; split; intros t H; discriminate|].
  destruct M as [M _].
  assert (I : Forall P (importedSites w) /\ Forall Q (importedNotes w)).
  { pose proof (importCards_invariant db
                  (priorityFoldersOf (priorityFoldersRaw flags))
                  (defaultFolder flags) P Q) as V.
    specialize (V
      (fun c t It =>
         match t as t0 return In t0 (triplets c) -> P (siteOf db c _ _ t0) with
         | (j, (title, login, pass, url)) =>
             fun It0 =>
               conj
                 (match tripletsFrom_found c _ _ _ _ It0 with
                  | ex_intro _ f E => tripletAt_nonempty c j f _ _ _ _ E
                  end)
                 (conj eq_refl eq_refl)
         end It)
      (fun c => conj eq_refl (conj eq_refl eq_refl))
      (Database.Cards db) (mkWorld [] [] [])
      (Forall_nil P) (Forall_nil Q)).
    rewrite M in V. exact V. }
  destruct I as [IP IQ].
  destruct (writeSitesCSV (importedSites w)) as [ts [e|]] eqn:Ws;
    unfold writeSitesCSV in Ws; apply writeCSV_spec in Ws;
    destruct Ws as [Ws Ws'].
  - simpl. split; [|intros t H; discriminate].
    intros t H. destruct Ws as [Ws|[k Ws]]; [congruence|].
    rewrite Ws in H. inversion H; subst. apply Rs, IP.
  - destruct (writeSecureNotesCSV (importedNotes w)) as [tn [e|]] eqn:Wn;
      unfold writeSecureNotesCSV in Wn; apply writeCSV_spec in Wn;
      destruct Wn as [Wn Wn']; simpl; split; intros t H.
    + destruct Ws as [Ws|[k Ws]]; [congruence|].
      rewrite Ws in H. inversion H; subst. apply Rs, IP.
    + destruct Wn as [Wn|[k Wn]]; [congruence|].
      rewrite Wn in H. inversion H; subst. apply Rn, IQ.
    + destruct Ws as [Ws|[k Ws]]; [congruence|].
      rewrite Ws in H. inversion H; subst. apply Rs, IP.
    + destruct Wn as [Wn|[k Wn]]; [congruence|].
      rewrite Wn in H. inversion H; subst. apply Rn, IQ.
Qed.

End Rows.

(** X20 at one site and no note, on a shell where every write succeeds. *)
Lemma csv_writers_hand_over_the_table_witness :
  @writeSitesCSV demoShell
     [Site.mk "https://example.com" "" "bob" "pw1" "" "" "example.com"
              "Imported" ""]
  = (Some [ [ "url"; "type"; "username"; "password"; "hostname"; "extra";
              "name"; "grouping"; "fav" ];
            [ "https://example.com"; ""; "bob"; "pw1"; ""; ""; "example.com";
              "Imported"; "" ] ],
     None)
  /\ @writeSecureNotesCSV demoShell [] = (Some [], None)
  /\ Some [ [ "url"; "type"; "username"; "password"; "hostname"; "extra";
              "name"; "grouping"; "fav" ];
            [ "https://example.com"; ""; "bob"; "pw1"; ""; ""; "example.com";
              "Imported"; "" ] ]
     = Some (tableOf
               [Site.mk "https://example.com" "" "bob" "pw1" "" ""
                        "example.com" "Imported" ""]).
Proof.
  assert (Hs : @writeSitesCSV demoShell
                 [Site.mk "https://example.com" "" "bob" "pw1" "" ""
                          "example.com" "Imported" ""]
               = (Some [ [ "url"; "type"; "username"; "password"; "hostname";
                           "extra"; "name"; "grouping"; "fav" ];
                         [ "https://example.com"; ""; "bob"; "pw1"; ""; "";
                           "example.com"; "Imported"; "" ] ],
                  None))
    by (vm_compute; reflexivity).
  assert (Hn : @writeSecureNotesCSV demoShell [] = (Some [], None))
    by (vm_compute; reflexivity).
  split; [exact Hs|]. split; [exact Hn|].
  exact (proj1 (proj2 (proj2
           (@csv_writers_hand_over_the_table demoShell _ _ _ _ _ _ Hs Hn)))
           eq_refl).
Defined.

(** The whole program on the demonstration database: the deleted card
    and the template are passed over, the router card gives two sites
    and the credit card one note. *)
Example main_on_demo_database :
  let outcome :=
    @main unix demoShell demoCommandLine
          ["-db"; "export.xml"; "-p"; "Work,Credit Cards"]
  in
  exitCode outcome = 0
  /\ option_map (@List.length (list string)) (sitesCSV outcome) = Some 3
  /\ option_map (@List.length (list string)) (notesCSV outcome) = Some 2
  /\ map Site.Username (importedSites (world outcome)) = ["admin"; "guest"]
  /\ map Site.Password (importedSites (world outcome)) = ["s3cret"; "s3cret"]
  /\ map Site.Grouping (importedSites (world outcome))
     = ["Imported - Google"; "Imported - Google"]
  /\ map Note.Grouping (importedNotes (world outcome)) = ["Credit Cards"]
  /\ map fst (disk (world outcome))
     = ["attachments/Router_0_cfg.bin"; "attachments/Router_0_cfg.bin"].
Proof. vm_compute. repeat split; reflexivity. Qed.

Example priorityFoldersOf_keeps_spaces :
  priorityFoldersOf "Banking, Credit Cards,,Work"
  = ["Banking"; " Credit Cards"; ""; "Work"].
Proof. reflexivity. Qed.

(** With an argument the stand-in command line does not know, the
    program ends with the status [flag.Parse] chose and does nothing. *)
Example main_on_unknown_flag :
  @main unix demoShell demoCommandLine ["-d"; "Untagged"]
  = mkOutcome 2 (mkWorld [] [] []) None None.
Proof. reflexivity. Qed.
